(** * The Sentiment Scope: derivation, filtering and aggregation pipeline

    A shallow embedding of [Code/app.py]: the column enrichment of
    [load_data], the three filters applied to [filtered_df] and the four
    KPI values computed from the filtered frame.

    Conventions.
    - A Python [str] is the list of its Unicode code points ([pystr]); the
      strings of the fixed vocabularies (language tags, sentiment labels,
      the radio choice) are Rocq strings.
    - A missing cell (pandas [NaN]/[None]) is [None].
    - A data frame is the list of its rows, in index order.
    - Python exceptions are values of [exn]; code that can raise returns a
      [result]. *)

From Stdlib Require Import List ZArith NArith QArith String Bool Lia.
Import ListNotations.

Set Implicit Arguments.

(** ** Python values *)

Definition char := N.
Definition pystr := list char.

(** The text of an ASCII literal of the source, as code points. *)
Definition lit (s : string) : pystr :=
  map Ascii.N_of_ascii (list_ascii_of_string s).

Definition len (s : pystr) : N := N.of_nat (List.length s).

Inductive exn := ReError | ValueError | ZeroDivisionError.

Inductive result (A : Type) :=
| Ok (a : A)
| Raise (e : exn).
Arguments Raise {A} e.

Definition bind {A B} (m : result A) (k : A -> result B) : result B :=
  match m with
  | Ok a => k a
  | Raise e => Raise e
  end.

Notation "x <- m ;; k" := (bind m (fun x => k))
  (at level 61, m at next level, right associativity).

(** A Python number as the KPI cards see it: the [int] of an [else 0]
    branch, a [float] (represented by the exact rational it stands for, in
    lowest terms) or the float [nan]. *)
Inductive pynum :=
| PyInt (z : Z)
| PyFloat (q : Q)
| PyNaN.

(** ** Rows *)

Record raw_row := {
  raw_review_content : option pystr;
  raw_label : Z
}.

Record row := {
  review_content : option pystr;
  label : Z;
  language : string;
  length : option N;
  sentiment_label : option string
}.

Definition table := list row.

(** ** [load_data] *)

Definition is_arabic (c : char) : bool :=
  ((0x0600 <=? c) && (c <=? 0x06FF))%N.

(** [detect_language]: [pd.isna(text)] first, then [any] over the
    characters. *)
Definition detect_language (text : option pystr) : string :=
  match text with
  | None => "Unknown"
  | Some s => if existsb is_arabic s then "Arabic" else "English"
  end.

Definition label_map : list (Z * string) :=
  [((-1)%Z, "Negative"%string); (0%Z, "Neutral"%string); (1%Z, "Positive"%string)].

(** [Series.map(dict)]: a key absent from the dict gives a missing value. *)
Fixpoint dict_get (d : list (Z * string)) (k : Z) : option string :=
  match d with
  | [] => None
  | (k', v) :: d' => if (k' =? k)%Z then Some v else dict_get d' k
  end.

Definition enrich_row (r : raw_row) : row := {|
  review_content := raw_review_content r;
  label := raw_label r;
  language := detect_language (raw_review_content r);
  length := option_map len (raw_review_content r);
  sentiment_label := dict_get label_map (raw_label r)
|}.

(** [read_csv] either yields the raw table, with [review_content] read as
    text and [label] as integers, or fails with [FileNotFoundError], in
    which case [load_data] returns [None]. *)
Definition load_data (csv : option (list raw_row)) : option table :=
  match csv with
  | None => None
  | Some raw => Some (map enrich_row raw)
  end.

(** ** [re] with [IGNORECASE], as [str.contains] uses it

    [Series.str.contains(pat, case=False, na=False)] keeps pandas' default
    [regex=True]: the pattern is compiled with [re.compile(pat,
    re.IGNORECASE)] and a cell matches when [search] finds a match anywhere
    in it.

    The pattern syntax modelled here is the fragment made of literal
    characters, [.], an escaped non-alphanumeric character, plain groups,
    [|] and the quantifiers [*], [+], [?] (with their lazy forms).  What
    the engine does beyond this fragment, and which characters
    [IGNORECASE] takes for the same letter (a table of the Unicode
    database), are the two fields of [PyRe]. *)

Class PyRe := {
  (** [ci_char p c]: under IGNORECASE the character [c] of a text matches
      the literal character [p] of a pattern *)
  ci_char : char -> char -> bool;
  (** [re.compile] then [search] on a pattern outside the fragment:
      [None] when [re.error] is raised *)
  re_extended : pystr -> option (pystr -> bool)
}.

Inductive regex :=
| Fail
| Eps
| Lit (c : char)
| Any
| Cat (r1 r2 : regex)
| Alt (r1 r2 : regex)
| Star (r : regex).

Inductive parsed (A : Type) :=
| Parsed (a : A)
| SyntaxError
| Beyond.
Arguments SyntaxError {A}.
Arguments Beyond {A}.

Definition ascii_alnum (c : char) : bool :=
  (((48 <=? c) && (c <=? 57)) || ((65 <=? c) && (c <=? 90))
   || ((97 <=? c) && (c <=? 122)))%N.

(** The items of a branch, most recent first; the flag tells whether the
    item is already a repeat. *)
Definition items := list (regex * bool).

Definition seq_items (its : items) : regex :=
  fold_left (fun acc it => Cat (fst it) acc) its Eps.

Definition quantify (q : char) (r : regex) : regex :=
  if (q =? 42)%N then Star r
  else if (q =? 43)%N then Cat r (Star r)
  else Alt r Eps.

(** [parse_sub] is sre's [_parse_sub] (the alternatives of a
    sub-pattern), [parse_branch] its [_parse] (the items of one
    alternative, up to [|], [)] or the end).  Both return the unread rest
    of the pattern. *)
Fixpoint parse_sub (fuel : nat) (src : pystr) : parsed (regex * pystr) :=
  match fuel with
  | O => Beyond
  | S f =>
    match parse_branch f src [] with
    | Parsed (r, 124%N :: rest) =>
      match parse_sub f rest with
      | Parsed (r', rest') => Parsed (Alt r r', rest')
      | SyntaxError => SyntaxError
      | Beyond => Beyond
      end
    | other => other
    end
  end
with parse_branch (fuel : nat) (src : pystr) (its : items)
  : parsed (regex * pystr) :=
  match fuel with
  | O => Beyond
  | S f =>
    match src with
    | [] => Parsed (seq_items its, [])
    | c :: rest =>
      if ((c =? 124) || (c =? 41))%N then Parsed (seq_items its, src)
      else if (c =? 92)%N then
        match rest with
        | [] => SyntaxError                       (* bad escape (end of pattern) *)
        | e :: rest' =>
          if ascii_alnum e then Beyond
          else parse_branch f rest' ((Lit e, false) :: its)
        end
      else if ((c =? 42) || (c =? 43) || (c =? 63))%N then
        match its with
        | [] => SyntaxError                       (* nothing to repeat *)
        | (_, true) :: _ => SyntaxError           (* multiple repeat *)
        | (r, false) :: its' =>
          match rest with
          | 63%N :: rest' => parse_branch f rest' ((quantify c r, true) :: its')
          | 43%N :: _ => Beyond                   (* possessive repeat *)
          | _ => parse_branch f rest ((quantify c r, true) :: its')
          end
        end
      else if (c =? 46)%N then parse_branch f rest ((Any, false) :: its)
      else if (c =? 40)%N then
        match rest with
        | 63%N :: _ => Beyond                     (* (?...) extensions *)
        | _ =>
          match parse_sub f rest with
          | Parsed (r, 41%N :: rest') => parse_branch f rest' ((r, false) :: its)
          | Parsed _ => SyntaxError               (* missing ) *)
          | SyntaxError => SyntaxError
          | Beyond => Beyond
          end
        end
      else if ((c =? 91) || (c =? 123) || (c =? 94) || (c =? 36))%N then Beyond
      else parse_branch f rest ((Lit c, false) :: its)
    end
  end.

Section Engine.
Context {re : PyRe}.

Fixpoint nullable (r : regex) : bool :=
  match r with
  | Fail | Lit _ | Any => false
  | Eps | Star _ => true
  | Cat r1 r2 => nullable r1 && nullable r2
  | Alt r1 r2 => nullable r1 || nullable r2
  end.

(** What is left of [r] to match once [c] has been read. *)
Fixpoint deriv (c : char) (r : regex) : regex :=
  match r with
  | Fail | Eps => Fail
  | Lit p => if ci_char p c then Eps else Fail
  | Any => if (c =? 10)%N then Fail else Eps
  | Cat r1 r2 =>
    if nullable r1 then Alt (Cat (deriv c r1) r2) (deriv c r2)
    else Cat (deriv c r1) r2
  | Alt r1 r2 => Alt (deriv c r1) (deriv c r2)
  | Star r1 => Cat (deriv c r1) (Star r1)
  end.

(** Some prefix of [s] matches [r]. *)
Fixpoint match_here (r : regex) (s : pystr) : bool :=
  nullable r ||
  match s with
  | [] => false
  | c :: s' => match_here (deriv c r) s'
  end.

(** [Pattern.search]: a match starts at some position of [s]. *)
Fixpoint re_search (r : regex) (s : pystr) : bool :=
  match_here r s ||
  match s with
  | [] => false
  | _ :: s' => re_search r s'
  end.

Definition re_compile (pat : pystr) : option (pystr -> bool) :=
  match parse_sub (2 * List.length pat + 2) pat with
  | Parsed (r, []) => Some (re_search r)
  | Parsed (_, _ :: _) => None                  (* unbalanced parenthesis *)
  | SyntaxError => None
  | Beyond => re_extended pat
  end.

(** [Series.str.contains(pat, case=False, na=na)] on a column of
    nullable strings. *)
Definition str_contains (col : list (option pystr)) (pat : pystr) (na : bool)
  : result (list bool) :=
  match re_compile pat with
  | None => Raise ReError
  | Some found =>
    Ok (map (fun x => match x with None => na | Some s => found s end) col)
  end.

End Engine.

(** ** Filtering ([app.py], "Apply Filters") *)

Record selection := {
  lang_filter : string;
  selected_sentiments : list string;
  search_query : pystr
}.

(** [Series.isin(values)]: a missing cell is in no list of strings. *)
Definition isin (x : option string) (values : list string) : bool :=
  match x with
  | None => false
  | Some v => existsb (String.eqb v) values
  end.

(** [frame[mask]]: the rows whose mask entry is [True], in order. *)
Definition getitem (frame : table) (mask : list bool) : table :=
  map fst (filter snd (combine frame mask)).

Definition language_mask (choice : string) (frame : table) : list bool :=
  map (fun r => (language r =? choice)%string) frame.

Definition sentiment_mask (chosen : list string) (frame : table) : list bool :=
  map (fun r => isin (sentiment_label r) chosen) frame.

Section Filters.
Context {re : PyRe}.

Definition search_mask (query : pystr) (frame : table) : result (list bool) :=
  str_contains (map review_content frame) query false.

(** The value [filtered_df] holds after the three steps, or the
    exception that interrupts them. *)
Definition apply_filters (sel : selection) (df : table) : result table :=
  let filtered_df := df in
  let filtered_df :=
    if negb (lang_filter sel =? "All")%string
    then getitem filtered_df (language_mask (lang_filter sel) filtered_df)
    else filtered_df in
  let filtered_df :=
    getitem filtered_df (sentiment_mask (selected_sentiments sel) filtered_df) in
  match search_query sel with
  | [] => Ok filtered_df
  | _ :: _ =>
    mask <- search_mask (search_query sel) filtered_df ;;
    Ok (getitem filtered_df mask)
  end.

End Filters.

(** ** The same steps on the object store

    Frames are objects: [df] and [filtered_df] are names bound to
    references, [df.copy()] and [frame[mask]] allocate a new frame.  The
    name [filtered_df] is first bound by the copy; what it refers to
    before is never read.  An exception leaves the store as it is when it
    is raised. *)

Definition ref := nat.

Record store := {
  heap : list table;
  var_df : ref;
  var_filtered_df : ref
}.

Definition M (A : Type) := store -> result A * store.

Definition ret {A} (a : A) : M A := fun s => (Ok a, s).

Definition mbind {A B} (m : M A) (k : A -> M B) : M B :=
  fun s =>
    match m s with
    | (Ok a, s') => k a s'
    | (Raise e, s') => (Raise e, s')
    end.

Notation "x <~ m ;; k" := (mbind m (fun x => k))
  (at level 61, m at next level, right associativity).

Definition lift {A} (r : result A) : M A := fun s => (r, s).

(** The rows of the frame [p] refers to (none for a reference to no
    frame, which the script never builds). *)
Definition deref (p : ref) : M table := fun s => (Ok (nth p (heap s) []), s).

Definition new (t : table) : M ref :=
  fun s => (Ok (List.length (heap s)),
            {| heap := heap s ++ [t]; var_df := var_df s;
               var_filtered_df := var_filtered_df s |}).

Definition get_df : M ref := fun s => (Ok (var_df s), s).

Definition get_filtered_df : M ref := fun s => (Ok (var_filtered_df s), s).

Definition set_filtered_df (p : ref) : M unit :=
  fun s => (Ok tt, {| heap := heap s; var_df := var_df s; var_filtered_df := p |}).

(** [filtered_df = filtered_df[mask]] *)
Definition reselect (mask_of : table -> result (list bool)) : M unit :=
  p <~ get_filtered_df ;;
  t <~ deref p ;;
  mask <~ lift (mask_of t) ;;
  q <~ new (getitem t mask) ;;
  set_filtered_df q.

(** [filtered_df = df.copy()] *)
Definition copy_df : M unit :=
  p <~ get_df ;;
  t <~ deref p ;;
  q <~ new t ;;
  set_filtered_df q.

Definition filter_language (sel : selection) : M unit :=
  if negb (lang_filter sel =? "All")%string
  then reselect (fun t => Ok (language_mask (lang_filter sel) t))
  else ret tt.

Definition filter_sentiment (sel : selection) : M unit :=
  reselect (fun t => Ok (sentiment_mask (selected_sentiments sel) t)).

Section Script.
Context {re : PyRe}.

Definition filter_search (sel : selection) : M unit :=
  match search_query sel with
  | [] => ret tt
  | _ :: _ => reselect (search_mask (search_query sel))
  end.

Definition apply_filters_script (sel : selection) : M unit :=
  _ <~ copy_df ;;
  _ <~ filter_language sel ;;
  _ <~ filter_sentiment sel ;;
  filter_search sel.

End Script.

(** ** KPI cards *)

Definition count (frame : table) : Z := Z.of_nat (List.length frame).

(** [a / b] on ints. *)
Definition truediv (a b : Z) : result pynum :=
  if (b =? 0)%Z then Raise ZeroDivisionError
  else Ok (PyFloat (Qred (inject_Z a / inject_Z b))).

Definition times (x : pynum) (k : Z) : pynum :=
  match x with
  | PyInt z => PyInt (z * k)
  | PyFloat q => PyFloat (Qred (q * inject_Z k))
  | PyNaN => PyNaN
  end.

Fixpoint dropna (col : list (option N)) : list N :=
  match col with
  | [] => []
  | Some x :: col' => x :: dropna col'
  | None :: col' => dropna col'
  end.

(** [Series.mean()], which skips missing values and is [nan] when nothing
    is left. *)
Definition mean (col : list (option N)) : pynum :=
  match dropna col with
  | [] => PyNaN
  | xs =>
    PyFloat (Qred (inject_Z (Z.of_N (fold_right N.add 0%N xs))
                   / inject_Z (Z.of_nat (List.length xs))))
  end.

Definition positive_pct (filtered_df : table) : result pynum :=
  if (0 <? count filtered_df)%Z then
    x <- truediv
           (count (getitem filtered_df
                     (map (fun r => (label r =? 1)%Z) filtered_df)))
           (count filtered_df) ;;
    Ok (times x 100)
  else Ok (PyInt 0).

Definition avg_len (filtered_df : table) : result pynum :=
  if (0 <? count filtered_df)%Z then Ok (mean (map length filtered_df))
  else Ok (PyInt 0).

Definition arabic_pct (filtered_df : table) : result pynum :=
  if (0 <? count filtered_df)%Z then
    x <- truediv
           (count (getitem filtered_df (language_mask "Arabic" filtered_df)))
           (count filtered_df) ;;
    Ok (times x 100)
  else Ok (PyInt 0).

Record kpis := {
  total : Z;
  positive_percentage : pynum;
  average_length : pynum;
  arabic_percentage : pynum
}.

Definition aggregate (filtered_df : table) : result kpis :=
  p <- positive_pct filtered_df ;;
  l <- avg_len filtered_df ;;
  a <- arabic_pct filtered_df ;;
  Ok {| total := count filtered_df; positive_percentage := p;
        average_length := l; arabic_percentage := a |}.

(** [int(x)], as in the card [f"{int(avg_len)} chars"]. *)
Definition py_int (x : pynum) : result Z :=
  match x with
  | PyInt z => Ok z
  | PyFloat q => Ok (Z.quot (Qnum q) (Zpos (Qden q)))
  | PyNaN => Raise ValueError
  end.

Definition avg_len_card (filtered_df : table) : result Z :=
  l <- avg_len filtered_df ;; py_int l.

(** The whole pass on the store: filter, then the cards read
    [filtered_df]. *)
Section Pipeline.
Context {re : PyRe}.

Definition dashboard_script (sel : selection) : M (table * kpis) :=
  _ <~ apply_filters_script sel ;;
  p <~ get_filtered_df ;;
  t <~ deref p ;;
  k <~ lift (aggregate t) ;;
  ret (t, k).

End Pipeline.

(** ** Vocabulary of the statements *)

(** The sentiment codes the label map knows. *)
Definition in_domain (l : Z) : Prop := (l = -1 \/ l = 0 \/ l = 1)%Z.

Definition all_sentiments : list string :=
  ["Positive"; "Neutral"; "Negative"]%string.

(** The default state of the sidebar. *)
Definition select_all : selection :=
  {| lang_filter := "All"; selected_sentiments := all_sentiments;
     search_query := [] |}.

(** The language and sentiment conditions of a selection, on one row. *)
Definition language_ok (sel : selection) (r : row) : bool :=
  if negb (lang_filter sel =? "All")%string
  then (language r =? lang_filter sel)%string
  else true.

Definition sentiment_ok (sel : selection) (r : row) : bool :=
  isin (sentiment_label r) (selected_sentiments sel).

(** What [str.contains] answers on one cell once the pattern is compiled. *)
Definition cell_found (found : pystr -> bool) (r : row) : bool :=
  match review_content r with
  | None => false
  | Some s => found s
  end.

(** The characters [re] gives a meaning to (sre's [SPECIAL_CHARS]). *)
Definition special (c : char) : bool :=
  existsb (N.eqb c) [46; 92; 91; 123; 40; 41; 42; 43; 63; 94; 36; 124]%N.

(** A search text that is a keyword: no character of it is special. *)
Definition plain (pat : pystr) : bool := forallb (fun c => negb (special c)) pat.

(** The regex a keyword compiles to: its characters in sequence. *)
Definition lits (pat : pystr) : regex :=
  fold_right (fun c acc => Cat (Lit c) acc) Eps pat.

Section Language.
Context {re : PyRe}.

(** The words a regex matches. *)
Inductive matches : regex -> pystr -> Prop :=
| MEps : matches Eps []
| MLit p c : ci_char p c = true -> matches (Lit p) [c]
| MAny c : c <> 10%N -> matches Any [c]
| MCat r1 r2 s1 s2 :
    matches r1 s1 -> matches r2 s2 -> matches (Cat r1 r2) (s1 ++ s2)
| MAltL r1 r2 s : matches r1 s -> matches (Alt r1 r2) s
| MAltR r1 r2 s : matches r2 s -> matches (Alt r1 r2) s
| MStar0 r : matches (Star r) []
| MStarS r s1 s2 :
    matches r s1 -> matches (Star r) s2 -> matches (Star r) (s1 ++ s2).

(** [text] is [needle] up to case, character by character. *)
Definition ci_eq (text needle : pystr) : Prop :=
  Forall2 (fun c p => ci_char p c = true) text needle.

(** [needle] occurs in [hay] as a substring, compared case-insensitively. *)
Definition ci_contains (needle hay : pystr) : Prop :=
  exists pre mid post, hay = pre ++ mid ++ post /\ ci_eq mid needle.

Fixpoint ci_prefix (needle hay : pystr) : bool :=
  match needle, hay with
  | [], _ => true
  | _ :: _, [] => false
  | p :: needle', c :: hay' => ci_char p c && ci_prefix needle' hay'
  end.

Fixpoint ci_find (needle hay : pystr) : bool :=
  ci_prefix needle hay ||
  match hay with
  | [] => false
  | _ :: hay' => ci_find needle hay'
  end.

(** The search predicate as the specification words it: every row when
    the search text is empty, otherwise the rows whose text is there and
    contains the search text, case-insensitively. *)
Definition keyword_search (query : pystr) (r : row) : bool :=
  match query with
  | [] => true
  | _ :: _ =>
    match review_content r with
    | None => false
    | Some content => ci_find query content
    end
  end.

(** The pass as a function of the selection and the enriched table. *)
Definition dashboard (sel : selection) (df : table) : result (table * kpis) :=
  sub <- apply_filters sel df ;;
  k <- aggregate sub ;;
  Ok (sub, k).

End Language.

(** The frame a name is bound to. *)
Definition df_of (s : store) : table := nth (var_df s) (heap s) [].

Definition filtered_df_of (s : store) : table :=
  nth (var_filtered_df s) (heap s) [].

(** [s'] is [s] after some filter steps: [df] is bound as before, the
    frames of [s] are all there, unchanged, and [filtered_df] is bound to
    a frame allocated since, whose rows are [cur]. *)
Definition after (s s' : store) (cur : table) : Prop :=
  var_df s' = var_df s /\
  (exists added, heap s' = heap s ++ added) /\
  (List.length (heap s) <= var_filtered_df s' < List.length (heap s'))%nat /\
  filtered_df_of s' = cur.

(** ** Example data *)

(** An engine for closed examples: the letters of ASCII compared up to
    case, and no pattern accepted outside the fragment.  It is used on
    search texts of the fragment only, where the second field is never
    consulted. *)
Definition ascii_fold (c : char) : char :=
  if ((65 <=? c) && (c <=? 90))%N then (c + 32)%N else c.

Definition ascii_re : PyRe :=
  {| ci_char := fun p c => (ascii_fold c =? ascii_fold p)%N;
     re_extended := fun _ => None |}.

Definition mk_raw (text : option pystr) (l : Z) : raw_row :=
  {| raw_review_content := text; raw_label := l |}.

(** The three reviews of the specification's worked example. *)
Definition sample_csv : list raw_row :=
  [ mk_raw (Some (lit "Great service")) 1;
    mk_raw (Some [0x062E; 0x062F; 0x0645; 0x0629; 0x20;
                  0x0633; 0x064A; 0x0626; 0x0629]%N) (-1);
    mk_raw (Some (lit "Okay")) 0 ].

Definition sample_df : table := map enrich_row sample_csv.

(** A table in which one review has no text, and the negative reviews
    of it. *)
Definition textless_csv : list raw_row :=
  [ mk_raw (Some (lit "Great service")) 1; mk_raw None (-1) ].

Definition textless_df : table := map enrich_row textless_csv.

Definition negative_selection : selection :=
  {| lang_filter := "All"; selected_sentiments := ["Negative"%string];
     search_query := [] |}.

Definition textless_subset : table := [enrich_row (mk_raw None (-1))].

(** A review whose sentiment code is not in the label map. *)
Definition unlabelled_review : raw_row := mk_raw (Some (lit "Okay")) 2.

Definition unlabelled_df : table := [enrich_row unlabelled_review].

(** English reviews of any sentiment that mention "OKAY". *)
Definition okay_selection : selection :=
  {| lang_filter := "English"; selected_sentiments := all_sentiments;
     search_query := lit "OKAY" |}.

Definition okay_subset : table := [enrich_row (mk_raw (Some (lit "Okay")) 0)].

(** Two stores that hold the sample table under [df] and differ in
    everything else. *)
Definition fresh_store : store :=
  {| heap := [sample_df]; var_df := 0%nat; var_filtered_df := 0%nat |}.

Definition used_store : store :=
  {| heap := [unlabelled_df; sample_df; okay_subset];
     var_df := 1%nat; var_filtered_df := 2%nat |}.

(** ** Chart data and the review explorer *)

(** Number of cells of a column that hold [v]. *)
Fixpoint count_value (v : string) (col : list (option string)) : nat :=
  match col with
  | [] => 0%nat
  | Some w :: col' =>
    ((if (w =? v)%string then 1 else 0) + count_value v col')%nat
  | None :: col' => count_value v col'
  end.

(** The values of a column, missing cells apart, each once, in the order
    of their first appearance. *)
Fixpoint uniques (col : list (option string)) : list string :=
  match col with
  | [] => []
  | Some v :: col' => v :: filter (fun w => negb (w =? v)%string) (uniques col')
  | None :: col' => uniques col'
  end.

Fixpoint insert_desc (x : string * nat) (l : list (string * nat))
  : list (string * nat) :=
  match l with
  | [] => [x]
  | y :: l' =>
    if (snd y <=? snd x)%nat then x :: l else y :: insert_desc x l'
  end.

(** By count, largest first; equal counts keep their order. *)
Definition sort_desc (l : list (string * nat)) : list (string * nat) :=
  fold_right insert_desc [] l.

(** [Series.value_counts()]: the count of every value present, missing
    cells dropped, most frequent first (pandas does not say in which order
    equal counts come; here they stay in order of first appearance). *)
Definition value_counts (col : list (option string)) : list (string * nat) :=
  sort_desc (map (fun v => (v, count_value v col)) (uniques col)).

(** [chart_data], one (Sentiment, Count) pair per row of the frame that
    [reset_index] builds. *)
Definition chart_data (filtered_df : table) : list (string * nat) :=
  value_counts (map sentiment_label filtered_df).

(** The four columns the explorer shows. *)
Record explorer_row := {
  shown_sentiment_label : option string;
  shown_language : string;
  shown_review_content : option pystr;
  shown_length : option N
}.

Definition explorer_columns (r : row) : explorer_row := {|
  shown_sentiment_label := sentiment_label r;
  shown_language := language r;
  shown_review_content := review_content r;
  shown_length := length r
|}.

(** [filtered_df[[...]].head(100)] *)
Definition review_explorer (filtered_df : table) : list explorer_row :=
  firstn 100 (map explorer_columns filtered_df).

(** ** More vocabulary *)


(** [l1] is [l2] with some elements left out, the others in order. *)
Inductive subseq {A : Type} : list A -> list A -> Prop :=
| subseq_nil : subseq [] []
| subseq_skip x l1 l2 : subseq l1 l2 -> subseq l1 (x :: l2)
| subseq_keep x l1 l2 : subseq l1 l2 -> subseq (x :: l1) (x :: l2).

Definition total_count (counts : list (string * nat)) : nat :=
  fold_right (fun p acc => (snd p + acc)%nat) 0%nat counts.

(** The language condition and the sentiment condition of a selection, as
    propositions. *)
Definition language_selected (sel : selection) (r : row) : Prop :=
  lang_filter sel = "All"%string \/ language r = lang_filter sel.

Definition sentiment_selected (sel : selection) (r : row) : Prop :=
  exists v, sentiment_label r = Some v /\ In v (selected_sentiments sel).

(** The same selection with another search text. *)
Definition with_search (sel : selection) (query : pystr) : selection :=
  {| lang_filter := lang_filter sel;
     selected_sentiments := selected_sentiments sel;
     search_query := query |}.

(** Counts that never increase along the list. *)
Fixpoint descending (l : list (string * nat)) : Prop :=
  match l with
  | [] => True
  | x :: l' => (forall y, In y l' -> (snd y <= snd x)%nat) /\ descending l'
  end.

(** The cells of a column that hold a value. *)
Definition defined_cells (col : list (option string)) : list (option string) :=
  filter (fun c => match c with Some _ => true | None => false end) col.

(** ** More example data *)

(** The negative reviews in Arabic, as in the specification's example. *)
Definition arabic_selection : selection :=
  {| lang_filter := "Arabic"; selected_sentiments := ["Negative"%string];
     search_query := [] |}.

Definition arabic_subset : table :=
  [enrich_row (mk_raw (Some [0x062E; 0x062F; 0x0645; 0x0629; 0x20;
                             0x0633; 0x064A; 0x0626; 0x0629]%N) (-1))].

Definition positive_selection : selection :=
  {| lang_filter := "All"; selected_sentiments := ["Positive"%string];
     search_query := [] |}.

Definition positive_subset : table :=
  [enrich_row (mk_raw (Some (lit "Great service")) 1)].

(** * Properties *)

(** ** Language classifier *)

Lemma is_arabic_range (c : char) :
  is_arabic c = true <-> (0x0600 <= c <= 0x06FF)%N.
Proof.
  unfold is_arabic. rewrite andb_true_iff, !N.leb_le. tauto.
Qed.

(** C4. A missing text is classified "Unknown"; a text with at least one
    character in U+0600..U+06FF is classified "Arabic"; every other text is
    classified "English". *)
Theorem detect_language_classifies (text : option pystr) :
  (text = None -> detect_language text = "Unknown"%string) /\
  (forall s, text = Some s ->
     (exists c, In c s /\ (0x0600 <= c <= 0x06FF)%N) ->
     detect_language text = "Arabic"%string) /\
  (forall s, text = Some s ->
     ~ (exists c, In c s /\ (0x0600 <= c <= 0x06FF)%N) ->
     detect_language text = "English"%string).
Proof.
  split; [| split].
  - intros ->. reflexivity.
  - intros s -> [c [Hin Hc]]. simpl.
    replace (existsb is_arabic s) with true; [reflexivity |].
    symmetry. apply existsb_exists. exists c. split; [exact Hin |].
    now apply is_arabic_range.
  - intros s -> Hno. simpl.
    destruct (existsb is_arabic s) eqn:E; [| reflexivity].
    exfalso. apply Hno. apply existsb_exists in E as [c [Hin Hc]].
    exists c. split; [exact Hin |]. now apply is_arabic_range.
Qed.

Example detect_language_sample :
  map language sample_df = ["English"; "Arabic"; "English"]%string.
Proof. reflexivity. Qed.

(** ** Sentiment labels *)

Lemma label_map_domain (l : Z) :
  dict_get label_map l <> None <-> in_domain l.
Proof.
  unfold in_domain, label_map, dict_get.
  destruct (Z.eqb_spec (-1) l); [intuition congruence |].
  destruct (Z.eqb_spec 0 l); [intuition congruence |].
  destruct (Z.eqb_spec 1 l); [intuition congruence |].
  split; [congruence | lia].
Qed.

Lemma label_map_values :
  dict_get label_map (-1) = Some "Negative"%string /\
  dict_get label_map 0 = Some "Neutral"%string /\
  dict_get label_map 1 = Some "Positive"%string.
Proof. repeat split. Qed.

Lemma label_map_in_vocabulary (l : Z) (v : string) :
  dict_get label_map l = Some v -> In v all_sentiments.
Proof.
  unfold label_map, dict_get, all_sentiments.
  destruct (-1 =? l)%Z; [intros [= <-]; simpl; tauto |].
  destruct (0 =? l)%Z; [intros [= <-]; simpl; tauto |].
  destruct (1 =? l)%Z; [intros [= <-]; simpl; tauto |].
  discriminate.
Qed.

Lemma label_enrich (x : raw_row) : label (enrich_row x) = raw_label x.
Proof. reflexivity. Qed.

Lemma sentiment_label_enrich (x : raw_row) :
  sentiment_label (enrich_row x) = dict_get label_map (raw_label x).
Proof. reflexivity. Qed.

(** ** Masks *)

Lemma getitem_map (p : row -> bool) (frame : table) :
  getitem frame (map p frame) = filter p frame.
Proof.
  unfold getitem. induction frame as [| r frame IH]; simpl; [reflexivity |].
  destruct (p r); simpl; now rewrite IH.
Qed.

Lemma filter_filter (p q : row -> bool) (frame : table) :
  filter q (filter p frame) = filter (fun r => p r && q r) frame.
Proof.
  induction frame as [| r frame IH]; simpl; [reflexivity |].
  destruct (p r); simpl; [destruct (q r) |]; now rewrite IH.
Qed.

Lemma filter_keeps_all (p : row -> bool) (frame : table) :
  (forall r, In r frame -> p r = true) -> filter p frame = frame.
Proof.
  induction frame as [| r frame IH]; simpl; intros H; [reflexivity |].
  rewrite (H r (or_introl eq_refl)). f_equal. apply IH. auto.
Qed.

Lemma filter_drops_all (p : row -> bool) (frame : table) :
  (forall r, In r frame -> p r = false) -> filter p frame = [].
Proof.
  induction frame as [| r frame IH]; simpl; intros H; [reflexivity |].
  rewrite (H r (or_introl eq_refl)). apply IH. auto.
Qed.

(** ** KPI cards *)

Lemma truediv_guarded (a : Z) (frame : table) :
  (0 <? count frame)%Z = true -> exists x, truediv a (count frame) = Ok x.
Proof.
  intros H. apply Z.ltb_lt in H. unfold truediv.
  destruct (Z.eqb_spec (count frame) 0); [lia | eauto].
Qed.

Lemma aggregate_returns (frame : table) : exists k, aggregate frame = Ok k.
Proof.
  unfold aggregate, positive_pct, avg_len, arabic_pct.
  destruct (0 <? count frame)%Z eqn:E.
  - destruct (truediv_guarded
                (count (getitem frame (map (fun r => (label r =? 1)%Z) frame)))
                frame E) as [x ->].
    destruct (truediv_guarded
                (count (getitem frame (language_mask "Arabic" frame)))
                frame E) as [y ->].
    simpl. eauto.
  - simpl. eauto.
Qed.

(** C6. On the empty subset the four values are 0 (and the length card
    shows 0); on no subset does the aggregator raise, the two divisions
    being evaluated only when the subset has a row, where they are
    defined; on the empty subset they would raise. *)
Theorem aggregate_empty_and_total :
  aggregate [] = Ok {| total := 0; positive_percentage := PyInt 0;
                       average_length := PyInt 0;
                       arabic_percentage := PyInt 0 |} /\
  avg_len_card [] = Ok 0%Z /\
  (forall frame, exists k, aggregate frame = Ok k) /\
  (forall frame, (0 <? count frame)%Z = false ->
     positive_pct frame = Ok (PyInt 0) /\ arabic_pct frame = Ok (PyInt 0)) /\
  (forall a, truediv a (count []) = Raise ZeroDivisionError).
Proof.
  split; [reflexivity |]. split; [reflexivity |].
  split; [exact aggregate_returns |]. split.
  - intros frame E. unfold positive_pct, arabic_pct. now rewrite E.
  - reflexivity.
Qed.

Lemma avg_len_empty : avg_len [] = Ok (PyInt 0).
Proof. reflexivity. Qed.

(** On a subset with a row, the card value is the mean of the defined
    lengths when there is one, and [nan] when there is none. *)
Lemma avg_len_nonempty (frame : table) :
  frame <> [] ->
  match dropna (map length frame) with
  | [] => avg_len frame = Ok PyNaN
  | xs => exists q, avg_len frame = Ok (PyFloat q) /\
          q == inject_Z (Z.of_N (fold_right N.add 0%N xs))
               / inject_Z (Z.of_nat (List.length xs))
  end.
Proof.
  intros Hne. unfold avg_len, mean.
  replace (0 <? count frame)%Z with true
    by (destruct frame; [congruence | reflexivity]).
  destruct (dropna (map length frame)) as [| x xs]; [reflexivity |].
  eexists. split; [reflexivity | apply Qred_correct].
Qed.

(** C2. A table with one review that has a text and one that has none;
    the selection of the negative reviews keeps the second only.  On that
    subset every length is undefined, the mean is [nan] (not 0) and the
    card's [int(avg_len)] raises. *)
Theorem avg_len_all_undefined_is_nan :
  load_data (Some textless_csv) = Some textless_df /\
  apply_filters (re := ascii_re) negative_selection textless_df
  = Ok textless_subset /\
  map length textless_subset = [None] /\
  avg_len textless_subset = Ok PyNaN /\
  avg_len_card textless_subset = Raise ValueError.
Proof. repeat split. Qed.

Example aggregate_sample :
  exists sub,
    apply_filters (re := ascii_re)
      {| lang_filter := "Arabic"; selected_sentiments := ["Negative"%string];
         search_query := [] |} sample_df = Ok sub /\
    map label sub = [(-1)%Z] /\
    aggregate sub = Ok {| total := 1; positive_percentage := PyFloat 0;
                          average_length := PyFloat 9;
                          arabic_percentage := PyFloat 100 |}.
Proof. eexists. repeat split. Qed.

(** ** Filter engine *)

Section FilterFacts.
Context {re : PyRe}.

Lemma apply_filters_unfold (sel : selection) (df : table) :
  apply_filters sel df =
  match search_query sel with
  | [] => Ok (filter (fun r => language_ok sel r && sentiment_ok sel r) df)
  | _ :: _ =>
    match re_compile (search_query sel) with
    | None => Raise ReError
    | Some found =>
      Ok (filter (fun r => language_ok sel r && sentiment_ok sel r
                           && cell_found found r) df)
    end
  end.
Proof.
  unfold apply_filters, search_mask, str_contains. cbv zeta.
  set (step1 := if negb (lang_filter sel =? "All")%string
                then getitem df (language_mask (lang_filter sel) df)
                else df).
  assert (Hstep :
    getitem step1 (sentiment_mask (selected_sentiments sel) step1)
    = filter (fun r => language_ok sel r && sentiment_ok sel r) df).
  { unfold sentiment_mask. rewrite getitem_map.
    unfold step1, language_ok, sentiment_ok, language_mask.
    destruct (negb (lang_filter sel =? "All")%string).
    - rewrite getitem_map. apply filter_filter.
    - reflexivity. }
  rewrite Hstep.
  destruct (search_query sel) as [| c q]; [reflexivity |].
  destruct (re_compile (c :: q)) as [found |]; simpl; [| reflexivity].
  rewrite map_map.
  change (map (fun x => match review_content x with
                        | Some s => found s
                        | None => false
                        end))
    with (map (cell_found found)).
  rewrite getitem_map, filter_filter. reflexivity.
Qed.

Lemma refilter_same (sel : selection) (df sub : table) :
  apply_filters sel df = Ok sub -> apply_filters sel sub = Ok sub.
Proof.
  rewrite !apply_filters_unfold.
  destruct (search_query sel) as [| c q].
  - intros [= <-]. f_equal. apply filter_keeps_all.
    intros r Hr. now apply filter_In in Hr.
  - destruct (re_compile (c :: q)) as [found |]; [| discriminate].
    intros [= <-]. f_equal. apply filter_keeps_all.
    intros r Hr. now apply filter_In in Hr.
Qed.

Lemma apply_filters_subset (sel : selection) (df sub : table) (r : row) :
  apply_filters sel df = Ok sub -> In r sub ->
  In r df /\ language_ok sel r = true /\ sentiment_ok sel r = true.
Proof.
  rewrite apply_filters_unfold.
  destruct (search_query sel) as [| c q].
  - intros [= <-] Hr. apply filter_In in Hr as [Hin Hp].
    apply andb_true_iff in Hp. tauto.
  - destruct (re_compile (c :: q)) as [found |]; [| discriminate].
    intros [= <-] Hr. apply filter_In in Hr as [Hin Hp].
    apply andb_true_iff in Hp as [Hp _].
    apply andb_true_iff in Hp. tauto.
Qed.

(** With no sentiment selected nothing is kept, whenever the search step
    does not raise. *)
Lemma no_sentiment_no_row (sel : selection) (df : table) :
  selected_sentiments sel = [] ->
  search_query sel = [] \/ re_compile (search_query sel) <> None ->
  apply_filters sel df = Ok [].
Proof.
  intros Hs Hq. rewrite apply_filters_unfold.
  assert (Hno : forall r, sentiment_ok sel r = false).
  { intros r. unfold sentiment_ok, isin. rewrite Hs.
    now destruct (sentiment_label r). }
  destruct (search_query sel) as [| c q].
  - f_equal. apply filter_drops_all. intros r _.
    now rewrite Hno, andb_false_r.
  - destruct Hq as [Hq | Hq]; [discriminate |].
    destruct (re_compile (c :: q)) as [found |]; [| congruence].
    f_equal. apply filter_drops_all. intros r _.
    now rewrite Hno, andb_false_r.
Qed.

Lemma isin_vocabulary (v : string) :
  In v all_sentiments -> isin (Some v) all_sentiments = true.
Proof.
  intros H. unfold isin. apply existsb_exists. exists v.
  split; [exact H | apply String.eqb_refl].
Qed.

(** C3 (amended). When every label of the enriched table is one of -1, 0,
    1, the default selection ("All", the three sentiments, no search
    text) returns the table itself: the same rows, in the same order. *)
Theorem select_all_keeps_table (csv : option (list raw_row)) (df : table) :
  load_data csv = Some df ->
  (forall r, In r df -> in_domain (label r)) ->
  apply_filters select_all df = Ok df.
Proof.
  intros Hload Hdom. rewrite apply_filters_unfold.
  change (search_query select_all) with (@nil char). cbv iota. f_equal.
  apply filter_keeps_all. intros r Hr.
  destruct csv as [raw |]; [| discriminate].
  injection Hload as <-.
  pose proof (Hdom r Hr) as Hl.
  apply in_map_iff in Hr as [x [<- _]].
  rewrite label_enrich in Hl. apply label_map_domain in Hl.
  unfold language_ok, sentiment_ok.
  change (negb (lang_filter select_all =? "All")%string) with false.
  cbv iota. rewrite sentiment_label_enrich.
  destruct (dict_get label_map (raw_label x)) as [v |] eqn:E; [| congruence].
  apply isin_vocabulary. eapply label_map_in_vocabulary. exact E.
Qed.

(** C7. Filtering the subset a selection produced, with the same
    selection, returns that subset. *)
Theorem apply_filters_idempotent (sel : selection) (df sub : table) :
  apply_filters sel df = Ok sub -> apply_filters sel sub = Ok sub.
Proof. apply refilter_same. Qed.

(** C8. A review whose label is none of -1, 0, 1 gets no sentiment
    label, and no selection keeps it: it is in no subset the filter
    returns, and the selection of all three sentiments returns a subset
    without it. *)
Theorem unlabelled_row_excluded (r : raw_row) :
  ~ in_domain (raw_label r) ->
  sentiment_label (enrich_row r) = None /\
  (forall sel df sub,
      apply_filters sel df = Ok sub -> ~ In (enrich_row r) sub) /\
  (forall df, exists sub,
      apply_filters select_all df = Ok sub /\ ~ In (enrich_row r) sub).
Proof.
  intros Hout.
  assert (Hnone : sentiment_label (enrich_row r) = None).
  { rewrite sentiment_label_enrich.
    destruct (dict_get label_map (raw_label r)) eqn:E; [| reflexivity].
    exfalso. apply Hout. apply label_map_domain. congruence. }
  assert (Hex : forall sel df sub,
             apply_filters sel df = Ok sub -> ~ In (enrich_row r) sub).
  { intros sel df sub Hsub Hin.
    destruct (apply_filters_subset _ _ _ Hsub Hin) as [_ [_ Hs]].
    unfold sentiment_ok in Hs. rewrite Hnone in Hs. discriminate. }
  split; [exact Hnone |]. split; [exact Hex |].
  intros df.
  assert (Hret : exists sub, apply_filters select_all df = Ok sub).
  { rewrite apply_filters_unfold. simpl. eauto. }
  destruct Hret as [sub Hsub]. exists sub. split; [exact Hsub |].
  exact (Hex _ _ _ Hsub).
Qed.

End FilterFacts.

(** ** The regex engine against the words it matches *)

Section EngineFacts.
Context {re : PyRe}.

Lemma matches_nil_nullable (r : regex) (s : pystr) :
  matches r s -> s = [] -> nullable r = true.
Proof.
  induction 1; intros Hs; simpl; try reflexivity; try discriminate.
  - apply app_eq_nil in Hs as [-> ->]. now rewrite IHmatches1, IHmatches2.
  - now rewrite IHmatches.
  - rewrite IHmatches by assumption. apply orb_true_r.
Qed.

Lemma nullable_matches_nil (r : regex) :
  nullable r = true -> matches r [].
Proof.
  induction r; simpl; intros H; try discriminate.
  - constructor.
  - apply andb_true_iff in H as [H1 H2].
    exact (MCat (IHr1 H1) (IHr2 H2)).
  - apply orb_true_iff in H as [H | H]; [apply MAltL | apply MAltR]; auto.
  - constructor.
Qed.

Lemma deriv_sound (c : char) (r : regex) :
  forall s, matches (deriv c r) s -> matches r (c :: s).
Proof.
  induction r; simpl; intros s H.
  - inversion H.
  - inversion H.
  - destruct (ci_char c0 c) eqn:E; inversion H; subst. now constructor.
  - destruct (N.eqb_spec c 10) as [E | E]; inversion H; subst.
    now constructor.
  - destruct (nullable r1) eqn:N1.
    + inversion H; subst.
      * match goal with
        | Hc : matches (Cat _ _) _ |- _ => inversion Hc; subst
        end.
        exact (MCat (s1 := c :: s1) (IHr1 _ ltac:(eassumption)) ltac:(eassumption)).
      * exact (MCat (s1 := []) (nullable_matches_nil _ N1) (IHr2 _ ltac:(eassumption))).
    + inversion H; subst.
      exact (MCat (s1 := c :: s1) (IHr1 _ ltac:(eassumption)) ltac:(eassumption)).
  - inversion H; subst; [apply MAltL | apply MAltR]; auto.
  - inversion H; subst.
    exact (MStarS (s1 := c :: s1) (IHr _ ltac:(eassumption)) ltac:(eassumption)).
Qed.

Lemma deriv_complete (r : regex) (w : pystr) :
  matches r w -> forall c s, w = c :: s -> matches (deriv c r) s.
Proof.
  induction 1; intros a t Hw; simpl; try discriminate.
  - injection Hw as -> <-. rewrite H. constructor.
  - injection Hw as -> <-.
    destruct (N.eqb_spec a 10); [contradiction | constructor].
  - destruct s1 as [| b s1].
    + simpl in Hw. subst s2.
      rewrite (matches_nil_nullable H eq_refl).
      apply MAltR. now apply IHmatches2.
    + injection Hw as -> <-.
      assert (Hc : matches (Cat (deriv a r1) r2) (s1 ++ s2))
        by (constructor; [now apply IHmatches1 | assumption]).
      destruct (nullable r1); [now apply MAltL | exact Hc].
  - apply MAltL. now apply IHmatches.
  - apply MAltR. now apply IHmatches.
  - destruct s1 as [| b s1].
    + simpl in Hw. now apply IHmatches2.
    + injection Hw as -> <-.
      constructor; [now apply IHmatches1 | assumption].
Qed.

Lemma match_here_spec (s : pystr) :
  forall r, match_here r s = true <->
            exists w rest, s = w ++ rest /\ matches r w.
Proof.
  induction s as [| c s IH]; intros r; simpl.
  - rewrite orb_false_r. split.
    + intros H. exists [], []. split; [reflexivity |].
      now apply nullable_matches_nil.
    + intros [w [rest [Hs Hm]]]. symmetry in Hs.
      apply app_eq_nil in Hs as [-> _].
      exact (matches_nil_nullable Hm eq_refl).
  - rewrite orb_true_iff, IH. split.
    + intros [H | [w [rest [-> Hm]]]].
      * exists [], (c :: s). split; [reflexivity |].
        now apply nullable_matches_nil.
      * exists (c :: w), rest. split; [reflexivity |].
        now apply deriv_sound.
    + intros [w [rest [Hs Hm]]]. destruct w as [| b w].
      * left. exact (matches_nil_nullable Hm eq_refl).
      * right. injection Hs as <- ->. exists w, rest.
        split; [reflexivity |]. exact (deriv_complete Hm eq_refl).
Qed.

(** [search] succeeds exactly when some substring is a word of the
    pattern. *)
Lemma re_search_spec (r : regex) (s : pystr) :
  re_search r s = true <->
  exists pre mid post, s = pre ++ mid ++ post /\ matches r mid.
Proof.
  induction s as [| c s IH]; simpl.
  - rewrite !orb_false_r. split.
    + intros H. exists [], [], []. split; [reflexivity |].
      now apply nullable_matches_nil.
    + intros [pre [mid [post [Hs Hm]]]]. symmetry in Hs.
      apply app_eq_nil in Hs as [_ Hs]. apply app_eq_nil in Hs as [-> _].
      exact (matches_nil_nullable Hm eq_refl).
  - rewrite orb_true_iff, IH.
    pose proof (match_here_spec (c :: s) r) as Hh. simpl in Hh. rewrite Hh.
    split.
    + intros [[w [rest [Hs Hm]]] | [pre [mid [post [-> Hm]]]]].
      * exists [], w, rest. split; [exact Hs | exact Hm].
      * exists (c :: pre), mid, post. split; [reflexivity | exact Hm].
    + intros [pre [mid [post [Hs Hm]]]]. destruct pre as [| b pre].
      * left. exists mid, post. split; [exact Hs | exact Hm].
      * right. injection Hs as <- ->. exists pre, mid, post.
        split; [reflexivity | exact Hm].
Qed.

End EngineFacts.

(** ** Keywords: search texts without special characters *)

Lemma parse_branch_plain_step (f : nat) (c : char) (rest : pystr) (its : items) :
  special c = false ->
  parse_branch (S f) (c :: rest) its
  = parse_branch f rest ((Lit c, false) :: its).
Proof.
  intros H. unfold special in H. cbn [existsb] in H.
  repeat (apply orb_false_iff in H; destruct H as [? H]).
  cbn [parse_branch].
  repeat match goal with
         | E : (c =? _)%N = false |- _ => rewrite E; clear E
         end.
  reflexivity.
Qed.

Lemma seq_items_lits (pat : pystr) (tail : regex) :
  fold_left (fun acc it => Cat (fst it) acc)
    (rev (map (fun c => (Lit c, false)) pat)) tail
  = fold_right (fun c acc => Cat (Lit c) acc) tail pat.
Proof.
  induction pat as [| c pat IH]; simpl; [reflexivity |].
  rewrite fold_left_app. simpl. now rewrite IH.
Qed.

Lemma parse_branch_plain (pat : pystr) :
  forall (its : items) (f : nat),
    plain pat = true -> (List.length pat < f)%nat ->
    parse_branch f pat its
    = Parsed (seq_items (rev (map (fun c => (Lit c, false)) pat) ++ its), []).
Proof.
  induction pat as [| c pat IH]; intros its f Hp Hf.
  - destruct f; [inversion Hf | reflexivity].
  - destruct f; [inversion Hf |]. simpl in Hp, Hf.
    apply andb_true_iff in Hp as [Hc Hp]. apply negb_true_iff in Hc.
    rewrite parse_branch_plain_step by exact Hc.
    rewrite IH by (auto; lia).
    simpl. now rewrite <- app_assoc.
Qed.

Lemma parse_sub_plain (pat : pystr) (f : nat) :
  plain pat = true -> (List.length pat < f)%nat ->
  parse_sub (S f) pat = Parsed (lits pat, []).
Proof.
  intros Hp Hf. cbn [parse_sub]. rewrite parse_branch_plain by assumption.
  rewrite app_nil_r. unfold seq_items. now rewrite seq_items_lits.
Qed.

Section KeywordFacts.
Context {re : PyRe}.

Lemma re_compile_plain (pat : pystr) :
  plain pat = true -> re_compile pat = Some (re_search (lits pat)).
Proof.
  intros Hp. unfold re_compile.
  replace (2 * List.length pat + 2)%nat
    with (S (2 * List.length pat + 1)) by lia.
  rewrite parse_sub_plain by (auto; lia). reflexivity.
Qed.

Lemma matches_lits (pat : pystr) :
  forall s, matches (lits pat) s <-> ci_eq s pat.
Proof.
  unfold ci_eq. induction pat as [| p pat IH]; intros s; simpl.
  - split.
    + intros H. inversion H. constructor.
    + intros H. inversion H. constructor.
  - split.
    + intros H. inversion H as [| | | r1 r2 s1 s2 H1 H2 | | | |]; subst.
      inversion H1; subst. simpl. constructor; [assumption |]. now apply IH.
    + intros H. inversion H as [| c p' s' pat' Hc Hs]; subst.
      exact (MCat (s1 := [c]) (MLit _ _ Hc) (proj2 (IH s') Hs)).
Qed.

Lemma ci_prefix_spec (needle : pystr) :
  forall hay, ci_prefix needle hay = true <->
              exists mid post, hay = mid ++ post /\ ci_eq mid needle.
Proof.
  unfold ci_eq.
  induction needle as [| p needle IH]; intros hay; simpl.
  - split; [| reflexivity]. intros _. exists [], hay.
    split; [reflexivity | constructor].
  - destruct hay as [| c hay].
    + split; [discriminate |]. intros [mid [post [Hh Hm]]].
      symmetry in Hh. apply app_eq_nil in Hh as [-> _]. inversion Hm.
    + rewrite andb_true_iff, IH. split.
      * intros [Hc [mid [post [-> Hm]]]]. exists (c :: mid), post.
        split; [reflexivity |]. now constructor.
      * intros [mid [post [Hh Hm]]].
        inversion Hm as [| b p' mid' needle' Hc Hm']; subst.
        injection Hh as <- ->.
        split; [exact Hc |]. exists mid', post. now split.
Qed.

Lemma ci_find_spec (needle hay : pystr) :
  ci_find needle hay = true <-> ci_contains needle hay.
Proof.
  unfold ci_contains. induction hay as [| c hay IH]; simpl.
  - rewrite orb_false_r, ci_prefix_spec. split.
    + intros [mid [post [Hh Hm]]]. exists [], mid, post. now split.
    + intros [pre [mid [post [Hh Hm]]]]. exists mid, post.
      split; [| exact Hm]. destruct pre; [exact Hh | discriminate].
  - rewrite orb_true_iff, IH, ci_prefix_spec. split.
    + intros [[mid [post [Hh Hm]]] | [pre [mid [post [-> Hm]]]]].
      * exists [], mid, post. now split.
      * exists (c :: pre), mid, post. now split.
    + intros [pre [mid [post [Hh Hm]]]]. destruct pre as [| b pre].
      * left. exists mid, post. now split.
      * right. injection Hh as <- ->. exists pre, mid, post. now split.
Qed.

Lemma re_search_lits (pat s : pystr) :
  re_search (lits pat) s = ci_find pat s.
Proof.
  apply eq_true_iff_eq. rewrite re_search_spec, ci_find_spec.
  unfold ci_contains.
  split; intros [pre [mid [post [Hs Hm]]]]; exists pre, mid, post;
    (split; [exact Hs |]); now apply matches_lits.
Qed.

(** On a keyword, the search step is the case-insensitive substring test
    of the specification, a review without text never matching. *)
Lemma search_mask_keyword (query : pystr) (frame : table) :
  plain query = true -> query <> [] ->
  search_mask query frame = Ok (map (keyword_search query) frame).
Proof.
  intros Hp Hq. unfold search_mask, str_contains.
  rewrite re_compile_plain by exact Hp. f_equal. rewrite map_map.
  apply map_ext. intros r. unfold keyword_search.
  destruct query as [| c q]; [congruence |].
  destruct (review_content r); [apply re_search_lits | reflexivity].
Qed.

Lemma keyword_search_spec (query : pystr) (r : row) :
  keyword_search query r = true <->
  query = [] \/
  exists content, review_content r = Some content /\
                  ci_contains query content.
Proof.
  unfold keyword_search. destruct query as [| c q].
  - split; [now left | reflexivity].
  - destruct (review_content r) as [content |].
    + rewrite ci_find_spec. split.
      * intros H. right. exists content. now split.
      * intros [H | [x [[= <-] H]]]; [discriminate | exact H].
    + split; [discriminate |].
      intros [H | [x [H _]]]; discriminate.
Qed.

(** A review without text is never found, whatever the pattern. *)
Lemma cell_found_null (found : pystr -> bool) (r : row) :
  review_content r = None -> cell_found found r = false.
Proof. unfold cell_found. now intros ->. Qed.

Example pizza_not_in_null :
  search_mask (lit "pizza") [enrich_row (mk_raw None 1)] = Ok [false].
Proof. reflexivity. Qed.

Lemma apply_filters_keyword (sel : selection) (df : table) :
  plain (search_query sel) = true ->
  apply_filters sel df
  = Ok (filter (fun r => language_ok sel r && sentiment_ok sel r
                         && keyword_search (search_query sel) r) df).
Proof.
  intros Hp. rewrite apply_filters_unfold.
  destruct (search_query sel) as [| c q] eqn:E.
  - f_equal. apply filter_ext. intros r. simpl. now rewrite andb_true_r.
  - rewrite re_compile_plain by exact Hp. f_equal. apply filter_ext.
    intros r. f_equal. unfold cell_found, keyword_search.
    destruct (review_content r); [apply re_search_lits | reflexivity].
Qed.

End KeywordFacts.

(** C1. The search text is compiled as a regular expression, not compared
    as a keyword: "." is found in "abc", which does not contain it, and "("
    makes the search step raise whatever the rows are. *)
Theorem search_text_compiled_as_regex :
  let r := enrich_row (mk_raw (Some (lit "abc")) 1) in
  search_mask (re := ascii_re) (lit ".") [r] = Ok [true] /\
  keyword_search (re := ascii_re) (lit ".") r = false /\
  ~ ci_contains (re := ascii_re) (lit ".") (lit "abc") /\
  (forall (re : PyRe) (frame : table),
      search_mask (lit "(") frame = Raise ReError).
Proof.
  split; [reflexivity |]. split; [reflexivity |]. split.
  - intros H. apply ci_find_spec in H. discriminate.
  - reflexivity.
Qed.

(** C5. With no sentiment selected and the search text "(", the filter
    raises instead of returning the empty subset. *)
Theorem empty_sentiments_bad_pattern_raises
  (re : PyRe) (lang : string) (df : table) :
  apply_filters {| lang_filter := lang; selected_sentiments := [];
                   search_query := lit "(" |} df = Raise ReError.
Proof. reflexivity. Qed.

(** ** The filter steps on the store *)

Lemma mbind_ok {A B} (m : M A) (k : A -> M B) (s s' : store) (a : A) :
  m s = (Ok a, s') -> mbind m k s = k a s'.
Proof. unfold mbind. now intros ->. Qed.

Lemma mbind_raise {A B} (m : M A) (k : A -> M B) (s s' : store) (e : exn) :
  m s = (Raise e, s') -> mbind m k s = (Raise e, s').
Proof. unfold mbind. now intros ->. Qed.

Lemma after_copy (s : store) :
  after s {| heap := heap s ++ [df_of s]; var_df := var_df s;
             var_filtered_df := List.length (heap s) |} (df_of s).
Proof.
  unfold after, filtered_df_of. simpl. split; [reflexivity |].
  split; [now exists [df_of s] |]. split.
  - rewrite length_app. simpl. lia.
  - now rewrite nth_middle.
Qed.

Lemma reselect_ok (mask_of : table -> result (list bool)) (mask : list bool)
      (s0 s : store) (cur : table) :
  after s0 s cur -> mask_of cur = Ok mask ->
  exists s', reselect mask_of s = (Ok tt, s') /\ after s0 s' (getitem cur mask).
Proof.
  intros [Hdf [[added Hheap] [Hfresh Hcur]]] Hmask.
  unfold filtered_df_of in Hcur.
  eexists. split.
  - unfold reselect, mbind, get_filtered_df, deref, lift, new, set_filtered_df.
    rewrite Hcur, Hmask. reflexivity.
  - unfold after, filtered_df_of. simpl. split; [exact Hdf |].
    split; [| split].
    + exists (added ++ [getitem cur mask]). now rewrite Hheap, app_assoc.
    + rewrite length_app. simpl. lia.
    + now rewrite nth_middle.
Qed.

Lemma reselect_raise (mask_of : table -> result (list bool)) (e : exn)
      (s0 s : store) (cur : table) :
  after s0 s cur -> mask_of cur = Raise e ->
  reselect mask_of s = (Raise e, s).
Proof.
  intros [_ [_ [_ Hcur]]] Hmask. unfold filtered_df_of in Hcur.
  unfold reselect, mbind, get_filtered_df, deref, lift.
  now rewrite Hcur, Hmask.
Qed.

Lemma copy_df_run (s : store) :
  exists s', copy_df s = (Ok tt, s') /\ after s s' (df_of s).
Proof.
  exists {| heap := heap s ++ [df_of s]; var_df := var_df s;
            var_filtered_df := List.length (heap s) |}.
  split; [reflexivity | apply after_copy].
Qed.

Lemma filter_language_run (sel : selection) (s0 s : store) (cur : table) :
  after s0 s cur ->
  exists s', filter_language sel s = (Ok tt, s') /\
             after s0 s' (if negb (lang_filter sel =? "All")%string
                          then getitem cur (language_mask (lang_filter sel) cur)
                          else cur).
Proof.
  intros H. unfold filter_language.
  destruct (negb (lang_filter sel =? "All")%string).
  - now apply reselect_ok with (cur := cur).
  - exists s. now split.
Qed.

Lemma filter_sentiment_run (sel : selection) (s0 s : store) (cur : table) :
  after s0 s cur ->
  exists s', filter_sentiment sel s = (Ok tt, s') /\
             after s0 s'
               (getitem cur (sentiment_mask (selected_sentiments sel) cur)).
Proof. intros H. now apply reselect_ok with (cur := cur). Qed.

Section ScriptFacts.
Context {re : PyRe}.

Lemma filter_search_run (sel : selection) (s0 s : store) (cur : table) :
  after s0 s cur ->
  match search_query sel with
  | [] => filter_search sel s = (Ok tt, s)
  | _ :: _ =>
    match search_mask (search_query sel) cur with
    | Ok mask => exists s', filter_search sel s = (Ok tt, s') /\
                            after s0 s' (getitem cur mask)
    | Raise e => filter_search sel s = (Raise e, s)
    end
  end.
Proof.
  intros H. unfold filter_search.
  destruct (search_query sel) as [| c q]; [reflexivity |].
  destruct (search_mask (c :: q) cur) as [mask | e] eqn:E.
  - now apply reselect_ok with (cur := cur).
  - now apply reselect_raise with (s0 := s0) (cur := cur).
Qed.

(** The script computes [apply_filters] of the frame bound to [df], in a
    store that extends the initial one. *)
Lemma script_refines (sel : selection) (s : store) :
  exists s' cur,
    after s s' cur /\
    match apply_filters sel (df_of s) with
    | Ok sub => apply_filters_script sel s = (Ok tt, s') /\ cur = sub
    | Raise e => apply_filters_script sel s = (Raise e, s')
    end.
Proof.
  destruct (copy_df_run s) as [s1 [E1 A1]].
  destruct (filter_language_run sel A1) as [s2 [E2 A2]].
  destruct (filter_sentiment_run sel A2) as [s3 [E3 A3]].
  pose proof (filter_search_run sel A3) as H4.
  unfold apply_filters_script.
  erewrite mbind_ok by exact E1.
  erewrite mbind_ok by exact E2.
  erewrite mbind_ok by exact E3.
  unfold apply_filters. cbv zeta.
  destruct (search_query sel) as [| c q].
  - exists s3. eexists. split; [exact A3 |]. now split.
  - destruct (search_mask (c :: q) _) as [mask | e]; simpl.
    + destruct H4 as [s4 [E4 A4]]. exists s4. eexists.
      split; [exact A4 |]. now split.
    + exists s3. eexists. split; [exact A3 | exact H4].
Qed.

(** C9. Whatever the selection, and whether or not the search step
    raises, the filter steps leave [df] bound to the same frame and every
    frame that existed before with the same rows; [filtered_df] ends
    bound to a frame allocated by the steps. *)
Theorem apply_filters_leaves_df (sel : selection) (s : store) :
  let s' := snd (apply_filters_script sel s) in
  var_df s' = var_df s /\
  (forall p t, nth_error (heap s) p = Some t ->
               nth_error (heap s') p = Some t) /\
  (List.length (heap s) <= var_filtered_df s')%nat.
Proof.
  destruct (script_refines sel s) as [s1 [cur [A H]]].
  assert (Hs' : snd (apply_filters_script sel s) = s1).
  { destruct (apply_filters sel (df_of s)).
    - destruct H as [-> _]. reflexivity.
    - now rewrite H. }
  cbv zeta. rewrite Hs'.
  destruct A as [Hdf [[added Hheap] [Hfresh _]]].
  split; [exact Hdf |]. split; [| lia].
  intros p t Hp. rewrite Hheap. rewrite nth_error_app1; [exact Hp |].
  apply nth_error_Some. congruence.
Qed.

Lemma dashboard_script_refines (sel : selection) (s : store) :
  fst (dashboard_script sel s) = dashboard sel (df_of s).
Proof.
  destruct (script_refines sel s) as [s1 [cur [A H]]].
  unfold dashboard_script, dashboard.
  destruct (apply_filters sel (df_of s)) as [sub | e].
  - destruct H as [E ->]. erewrite mbind_ok by exact E.
    destruct A as [_ [_ [_ Hcur]]]. unfold filtered_df_of in Hcur.
    unfold mbind, get_filtered_df, deref, lift, ret. rewrite Hcur. simpl.
    now destruct (aggregate sub).
  - erewrite mbind_raise by exact H. reflexivity.
Qed.

(** C10. The subset and the four KPI values the pass produces are a
    function of the selection and of the rows of [df]: two runs with the
    same selection, from stores that may differ in everything else, give
    the same outcome. *)
Theorem dashboard_deterministic (sel : selection) (s1 s2 : store) :
  df_of s1 = df_of s2 ->
  fst (dashboard_script sel s1) = fst (dashboard_script sel s2).
Proof.
  intros H. rewrite !dashboard_script_refines. now rewrite H.
Qed.

End ScriptFacts.

(** ** The statements on the example data *)

(** C3, as stated, fails on a table that holds a review with sentiment
    code 2: the review is in the enriched table and the default selection
    returns nothing. *)
Lemma select_all_loses_unlabelled_review :
  load_data (Some [unlabelled_review]) = Some unlabelled_df /\
  apply_filters (re := ascii_re) select_all unlabelled_df = Ok [] /\
  ~ (forall r, In r unlabelled_df <-> In r []).
Proof.
  split; [reflexivity |]. split; [reflexivity |].
  intros H. apply (H (enrich_row unlabelled_review)). now left.
Qed.

Lemma select_all_keeps_sample :
  load_data (Some sample_csv) = Some sample_df /\
  (forall r, In r sample_df -> in_domain (label r)) /\
  apply_filters (re := ascii_re) select_all sample_df = Ok sample_df.
Proof.
  split; [reflexivity |].
  split; [intros r [<- | [<- | [<- | []]]]; unfold in_domain; simpl; lia |].
  apply (@select_all_keeps_table ascii_re (Some sample_csv) sample_df).
  - reflexivity.
  - intros r [<- | [<- | [<- | []]]]; unfold in_domain; simpl; lia.
Defined.

Lemma okay_selection_idempotent :
  apply_filters (re := ascii_re) okay_selection sample_df = Ok okay_subset /\
  apply_filters (re := ascii_re) okay_selection okay_subset = Ok okay_subset.
Proof.
  split; [reflexivity |].
  apply (@apply_filters_idempotent ascii_re okay_selection sample_df
           okay_subset).
  reflexivity.
Defined.

Lemma unlabelled_review_excluded :
  ~ in_domain (raw_label unlabelled_review) /\
  sentiment_label (enrich_row unlabelled_review) = None /\
  (forall sel df sub,
      apply_filters (re := ascii_re) sel df = Ok sub ->
      ~ In (enrich_row unlabelled_review) sub) /\
  (forall df, exists sub,
      apply_filters (re := ascii_re) select_all df = Ok sub /\
      ~ In (enrich_row unlabelled_review) sub).
Proof.
  split; [unfold in_domain; simpl; lia |].
  apply (@unlabelled_row_excluded ascii_re unlabelled_review).
  unfold in_domain; simpl; lia.
Defined.

Lemma dashboard_same_on_both_stores :
  df_of fresh_store = df_of used_store /\
  fst (dashboard_script (re := ascii_re) okay_selection fresh_store)
  = fst (dashboard_script (re := ascii_re) okay_selection used_store).
Proof.
  split; [reflexivity |].
  apply (@dashboard_deterministic ascii_re okay_selection fresh_store
           used_store).
  reflexivity.
Defined.

Example dashboard_okay :
  fst (dashboard_script (re := ascii_re) okay_selection used_store)
  = Ok (okay_subset,
        {| total := 1; positive_percentage := PyFloat 0;
           average_length := PyFloat 4; arabic_percentage := PyFloat 0 |}).
Proof. reflexivity. Qed.

(** * Further properties of the code *)

(** ** Enrichment *)

Lemma enriched_row_of_load (csv : option (list raw_row)) (df : table) (r : row) :
  load_data csv = Some df -> In r df -> exists x, r = enrich_row x.
Proof.
  destruct csv as [raw |]; [| discriminate]. intros [= <-] Hr.
  apply in_map_iff in Hr as [x [Hx _]]. now exists x.
Qed.


(** X2. A review is tagged "Unknown" exactly when it has no text, which is
    also exactly when it has no length; a text has its number of
    characters for length, and no tag other than "Arabic", "English" and
    "Unknown" is given. *)
Theorem enrich_row_text_columns (r : raw_row) :
  (language (enrich_row r) = "Unknown"%string <-> raw_review_content r = None) /\
  (length (enrich_row r) = None <-> raw_review_content r = None) /\
  (forall s, raw_review_content r = Some s ->
             length (enrich_row r) = Some (N.of_nat (List.length s))) /\
  In (language (enrich_row r)) ["Arabic"; "English"; "Unknown"]%string.
Proof.
  unfold enrich_row, detect_language. simpl.
  destruct (raw_review_content r) as [s |]; simpl.
  - destruct (existsb is_arabic s); repeat split; intros;
      try discriminate; try (injection H as <-; reflexivity); auto.
  - repeat split; intros; try discriminate; auto.
Qed.

(** X3. The label map is one-to-one between the codes -1, 0, 1 and the
    three sentiment labels: a review gets a label exactly when its code is
    one of the three, two labelled reviews have the same label only if
    they have the same code, and each of the three labels is given. *)
Theorem label_map_one_to_one :
  (forall r, sentiment_label (enrich_row r) <> None <-> in_domain (raw_label r)) /\
  (forall r1 r2 v,
      sentiment_label (enrich_row r1) = Some v ->
      sentiment_label (enrich_row r2) = Some v ->
      raw_label r1 = raw_label r2) /\
  (forall v, In v all_sentiments <->
             exists r, sentiment_label (enrich_row r) = Some v).
Proof.
  split; [| split].
  - intros r. rewrite sentiment_label_enrich. apply label_map_domain.
  - intros r1 r2 v. rewrite !sentiment_label_enrich.
    unfold label_map, dict_get.
    destruct (Z.eqb_spec (-1) (raw_label r1)) as [<- |];
      [| destruct (Z.eqb_spec 0 (raw_label r1)) as [<- |];
         [| destruct (Z.eqb_spec 1 (raw_label r1)) as [<- |];
            [| discriminate]]];
      intros [= <-];
      (destruct (Z.eqb_spec (-1) (raw_label r2)) as [<- |];
       [| destruct (Z.eqb_spec 0 (raw_label r2)) as [<- |];
          [| destruct (Z.eqb_spec 1 (raw_label r2)) as [<- |];
             [| discriminate]]]);
      intros H; try discriminate H; reflexivity.
  - intros v. split.
    + intros [<- | [<- | [<- | []]]].
      * now exists (mk_raw None 1).
      * now exists (mk_raw None 0).
      * now exists (mk_raw None (-1)).
    + intros [r H]. rewrite sentiment_label_enrich in H.
      eapply label_map_in_vocabulary. exact H.
Qed.

(** X4. A text made of two parts is classified "Arabic" exactly when one
    of the parts is: one Arabic character anywhere decides, and adding
    text never turns an Arabic review into an English one. *)
Theorem detect_language_append (a b : pystr) :
  detect_language (Some (a ++ b)) = "Arabic"%string <->
  detect_language (Some a) = "Arabic"%string \/
  detect_language (Some b) = "Arabic"%string.
Proof.
  unfold detect_language. rewrite existsb_app.
  destruct (existsb is_arabic a), (existsb is_arabic b); simpl;
    split; intros; try discriminate; try tauto;
    try (destruct H; discriminate).
Qed.

(** ** The filtered view *)

Lemma language_ok_iff (sel : selection) (r : row) :
  language_ok sel r = true <-> language_selected sel r.
Proof.
  unfold language_ok, language_selected.
  destruct (String.eqb_spec (lang_filter sel) "All") as [E | E]; simpl.
  - split; auto.
  - rewrite String.eqb_eq. split; [auto | intros [H | H]; congruence].
Qed.

Lemma sentiment_ok_iff (sel : selection) (r : row) :
  sentiment_ok sel r = true <-> sentiment_selected sel r.
Proof.
  unfold sentiment_ok, sentiment_selected, isin.
  destruct (sentiment_label r) as [v |].
  - rewrite existsb_exists. split.
    + intros [w [Hin Hw]]. apply String.eqb_eq in Hw. subst w.
      exists v. now split.
    + intros [w [[= <-] Hin]]. exists v. split; [exact Hin |].
      apply String.eqb_refl.
  - split; [discriminate | intros [w [H _]]; discriminate].
Qed.

Lemma filter_subseq (p : row -> bool) (frame : table) :
  subseq (filter p frame) frame.
Proof.
  induction frame as [| r frame IH]; simpl; [constructor |].
  destruct (p r); now constructor.
Qed.

Lemma subseq_refl {A : Type} (l : list A) : subseq l l.
Proof. induction l; now constructor. Qed.

Lemma subseq_length {A : Type} (l1 l2 : list A) :
  subseq l1 l2 -> (List.length l1 <= List.length l2)%nat.
Proof. induction 1; simpl; lia. Qed.

Lemma subseq_In {A : Type} (l1 l2 : list A) (x : A) :
  subseq l1 l2 -> In x l1 -> In x l2.
Proof.
  induction 1; simpl; intros Hx; [exact Hx | right; auto |].
  destruct Hx as [-> | Hx]; [now left | right; auto].
Qed.

Section ViewFacts.
Context {re : PyRe}.

(** X5. For a search text without special characters the filter returns,
    and the rows it returns are exactly the rows of the table that pass
    the language choice and carry a selected sentiment and, when the
    search text is not empty, have a text that contains it up to case. *)
Theorem keyword_filter_membership (sel : selection) (df : table) :
  plain (search_query sel) = true ->
  exists sub,
    apply_filters sel df = Ok sub /\
    forall r,
      In r sub <->
      In r df /\ language_selected sel r /\ sentiment_selected sel r /\
      (search_query sel = [] \/
       exists content, review_content r = Some content /\
                       ci_contains (search_query sel) content).
Proof.
  intros Hp. eexists. split; [now apply apply_filters_keyword |].
  intros r. rewrite filter_In, !andb_true_iff.
  rewrite language_ok_iff, sentiment_ok_iff, keyword_search_spec. tauto.
Qed.

(** X6. The filtered view is the table with rows left out: its rows are
    rows of the table, in the table's order, none repeated more often
    than in the table, and it has at most as many rows. *)
Theorem filtered_view_is_subsequence (sel : selection) (df sub : table) :
  apply_filters sel df = Ok sub ->
  subseq sub df /\ (count sub <= count df)%Z.
Proof.
  rewrite apply_filters_unfold. intros H.
  assert (Hs : subseq sub df).
  { destruct (search_query sel) as [| c q].
    - injection H as <-. apply filter_subseq.
    - destruct (re_compile (c :: q)) as [found |]; [| discriminate].
      injection H as <-. apply filter_subseq. }
  split; [exact Hs |]. unfold count. apply subseq_length in Hs. lia.
Qed.

(** X7. Selecting more sentiments, with the same language choice and the
    same search text, never loses a row. *)
Theorem more_sentiments_more_rows (sel1 sel2 : selection) (df sub1 sub2 : table) :
  lang_filter sel1 = lang_filter sel2 ->
  search_query sel1 = search_query sel2 ->
  incl (selected_sentiments sel1) (selected_sentiments sel2) ->
  apply_filters sel1 df = Ok sub1 ->
  apply_filters sel2 df = Ok sub2 ->
  incl sub1 sub2.
Proof.
  intros Hl Hq Hincl. rewrite !apply_filters_unfold. rewrite <- Hq.
  assert (Hok : forall r, language_ok sel1 r && sentiment_ok sel1 r = true ->
                          language_ok sel2 r && sentiment_ok sel2 r = true).
  { intros r. rewrite !andb_true_iff, !language_ok_iff, !sentiment_ok_iff.
    unfold language_selected, sentiment_selected. rewrite <- Hl.
    intros [H1 [v [Hv Hin]]]. split; [exact H1 |]. exists v. auto. }
  destruct (search_query sel1) as [| c q].
  - intros [= <-] [= <-] r Hr. apply filter_In in Hr as [Hin Hp].
    apply filter_In. auto.
  - destruct (re_compile (c :: q)) as [found |]; [| discriminate].
    intros [= <-] [= <-] r Hr. apply filter_In in Hr as [Hin Hp].
    apply andb_true_iff in Hp as [Hp Hf].
    apply filter_In. split; [exact Hin |]. now rewrite (Hok r Hp).
Qed.

(** X8. Without a search text the filter never raises, and a search text
    only narrows the view: whatever the filter returns with a search text
    is the view without it, with rows left out. *)
Theorem search_only_narrows (sel : selection) (df : table) :
  exists view,
    apply_filters (with_search sel []) df = Ok view /\
    forall query sub,
      apply_filters (with_search sel query) df = Ok sub -> subseq sub view.
Proof.
  exists (filter (fun r => language_ok sel r && sentiment_ok sel r) df).
  split; [exact (apply_filters_unfold (with_search sel []) df) |].
  intros query sub. rewrite (apply_filters_unfold (with_search sel query) df).
  change (search_query (with_search sel query)) with query.
  destruct query as [| c q].
  - intros [= <-]. apply subseq_refl.
  - destruct (re_compile (c :: q)) as [found |]; [| discriminate].
    intros [= <-].
    change (filter (fun r => language_ok (with_search sel (c :: q)) r
                             && sentiment_ok (with_search sel (c :: q)) r
                             && cell_found found r) df)
      with (filter (fun r => (fun r0 => language_ok sel r0
                                        && sentiment_ok sel r0) r
                             && cell_found found r) df).
    rewrite <- filter_filter. apply filter_subseq.
Qed.

(** X9. On an enriched table, a review without text is in the view only
    when the language choice is "All" (or the tag "Unknown" itself) and
    there is no search text. *)
Theorem textless_review_in_view
        (csv : option (list raw_row)) (sel : selection) (df sub : table) (r : row) :
  load_data csv = Some df ->
  apply_filters sel df = Ok sub ->
  In r sub ->
  review_content r = None ->
  (lang_filter sel = "All"%string \/ lang_filter sel = "Unknown"%string) /\
  search_query sel = [].
Proof.
  intros Hload Hsub Hr Hnull.
  destruct (apply_filters_subset _ _ _ Hsub Hr) as [Hdf [Hlang _]].
  destruct (@enriched_row_of_load _ _ _ Hload Hdf) as [x ->].
  split.
  - apply language_ok_iff in Hlang as [H | H]; [now left | right].
    rewrite <- H. simpl in Hnull. unfold enrich_row. simpl.
    now rewrite Hnull.
  - rewrite apply_filters_unfold in Hsub.
    destruct (search_query sel) as [| c q]; [reflexivity |].
    destruct (re_compile (c :: q)) as [found |]; [| discriminate].
    injection Hsub as <-. apply filter_In in Hr as [_ Hp].
    apply andb_true_iff in Hp as [_ Hf].
    rewrite cell_found_null in Hf by exact Hnull. discriminate.
Qed.

(** X10. On an enriched table, the choice "Arabic" keeps only reviews
    whose text has a character in U+0600..U+06FF, and the choice
    "English" only reviews that have a text without any. *)
Theorem language_choice_meaning
        (csv : option (list raw_row)) (sel : selection) (df sub : table) (r : row) :
  load_data csv = Some df ->
  apply_filters sel df = Ok sub ->
  In r sub ->
  (lang_filter sel = "Arabic"%string ->
   exists s, review_content r = Some s /\
             exists c, In c s /\ (0x0600 <= c <= 0x06FF)%N) /\
  (lang_filter sel = "English"%string ->
   exists s, review_content r = Some s /\
             forall c, In c s -> ~ (0x0600 <= c <= 0x06FF)%N).
Proof.
  intros Hload Hsub Hr.
  destruct (apply_filters_subset _ _ _ Hsub Hr) as [Hdf [Hlang _]].
  destruct (@enriched_row_of_load _ _ _ Hload Hdf) as [x ->].
  apply language_ok_iff in Hlang. unfold language_selected in Hlang.
  unfold enrich_row in *. simpl in *. unfold detect_language in Hlang.
  split; intros E; rewrite E in Hlang;
    (destruct Hlang as [Hlang | Hlang]; [discriminate |]);
    destruct (raw_review_content x) as [s |]; try discriminate;
    destruct (existsb is_arabic s) eqn:Ha; try discriminate;
    exists s; (split; [reflexivity |]).
  - apply existsb_exists in Ha as [c [Hin Hc]]. exists c.
    split; [exact Hin |]. now apply is_arabic_range.
  - intros c Hin Hc. apply is_arabic_range in Hc.
    assert (existsb is_arabic s = true)
      by (apply existsb_exists; now exists c).
    congruence.
Qed.

End ViewFacts.

(** ** The KPI cards on a view *)


Lemma count_nonempty (frame : table) :
  frame <> [] -> (0 <? count frame)%Z = true.
Proof. destruct frame; [congruence | reflexivity]. Qed.

Lemma inject_Z_pos (b : Z) : (0 < b)%Z -> 0 < inject_Z b.
Proof. unfold Qlt. simpl. lia. Qed.

Lemma inject_Z_nonneg (a : Z) : (0 <= a)%Z -> 0 <= inject_Z a.
Proof. unfold Qle. simpl. lia. Qed.

Lemma inject_Z_le (a b : Z) : (a <= b)%Z -> inject_Z a <= inject_Z b.
Proof. unfold Qle. simpl. lia. Qed.


Lemma share_all (n : Z) :
  (0 < n)%Z ->
  (x <- truediv n n ;; Ok (times x 100)) = Ok (PyFloat 100).
Proof.
  intros Hn. unfold truediv.
  destruct (Z.eqb_spec n 0) as [E | E]; [lia |]. cbn [bind times].
  do 2 f_equal.
  transitivity (Qred 100); [apply Qred_complete | reflexivity].
  rewrite Qred_correct. unfold Qdiv. rewrite Qmult_inv_r; [reflexivity |].
  intros H. apply inject_Z_pos in Hn. rewrite H in Hn.
  now apply Qlt_irrefl in Hn.
Qed.

Lemma share_none (n : Z) :
  (0 < n)%Z ->
  (x <- truediv 0 n ;; Ok (times x 100)) = Ok (PyFloat 0).
Proof.
  intros Hn. unfold truediv.
  destruct (Z.eqb_spec n 0) as [E | E]; [lia |]. reflexivity.
Qed.


Lemma dropna_nil (col : list (option N)) :
  dropna col = [] <-> forall x, In x col -> x = None.
Proof.
  induction col as [| [x |] col IH]; simpl.
  - split; [intros _ x [] | reflexivity].
  - split; [discriminate |]. intros H.
    now specialize (H (Some x) (or_introl eq_refl)).
  - rewrite IH. split; [intros H x [<- | Hx]; auto | auto].
Qed.

Lemma dropna_In (col : list (option N)) (x : N) :
  In x (dropna col) <-> In (Some x) col.
Proof.
  induction col as [| [y |] col IH]; simpl.
  - tauto.
  - rewrite IH. split; intros [H | H]; auto; left; congruence.
  - rewrite IH. split; [auto | intros [H | H]; [discriminate | exact H]].
Qed.

(** X12. The length card raises exactly on a view that has rows, none of
    them with a text, and then with [ValueError]; in every other case it
    shows a number that is not negative. *)
Theorem avg_len_card_raises_iff (frame : table) :
  (avg_len_card frame = Raise ValueError <->
   frame <> [] /\ forall r, In r frame -> length r = None) /\
  (forall e, avg_len_card frame = Raise e -> e = ValueError) /\
  (forall z, avg_len_card frame = Ok z -> (0 <= z)%Z).
Proof.
  unfold avg_len_card, avg_len, mean.
  destruct frame as [| r0 frame].
  - simpl. repeat split; try discriminate.
    + intros [H _]. congruence.
    + intros z [= <-]. lia.
  - change (0 <? count (r0 :: frame))%Z with true. cbv iota.
    destruct (dropna (map length (r0 :: frame))) as [| x xs] eqn:E.
    + simpl. split; [| split; [intros e [= <-]; reflexivity | discriminate]].
      split; [| reflexivity]. intros _. split; [discriminate |].
      intros r Hr. apply dropna_nil with (x := length r) in E; [exact E |].
      now apply in_map.
    + cbn [bind py_int]. split; [| split; [discriminate |]].
      * split; [discriminate |]. intros [_ H].
        assert (Hnil : dropna (map length (r0 :: frame)) = []).
        { apply dropna_nil. intros y Hy.
          apply in_map_iff in Hy as [r [<- Hr]]. now apply H. }
        congruence.
      * intros z [= <-]. apply Z.quot_pos; [| lia].
        set (q := inject_Z (Z.of_N (fold_right N.add 0%N (x :: xs)))
                  / inject_Z (Z.of_nat (List.length (x :: xs)))).
        assert (Hq : 0 <= Qred q).
        { rewrite Qred_correct. unfold q.
          apply Qle_shift_div_l.
          - apply inject_Z_pos. simpl List.length. lia.
          - rewrite Qmult_0_l. apply inject_Z_nonneg. lia. }
        unfold Qle in Hq. simpl in Hq. lia.
Qed.

Lemma sum_between (xs : list N) (lo hi : N) :
  (forall x, In x xs -> (lo <= x <= hi)%N) ->
  (lo * N.of_nat (List.length xs) <= fold_right N.add 0 xs
   <= hi * N.of_nat (List.length xs))%N.
Proof.
  induction xs as [| x xs IH]; intros H.
  - simpl. lia.
  - pose proof (H x (or_introl eq_refl)).
    assert (Hxs : forall y, In y xs -> (lo <= y <= hi)%N)
      by (intros y Hy; apply H; now right).
    specialize (IH Hxs). cbn [fold_right List.length]. lia.
Qed.

(** X13. When the length card has a mean to show, the mean lies between
    any two bounds of the lengths of the view's texts: it is never below
    the shortest nor above the longest. *)
Theorem avg_len_between (frame : table) (q : Q) (lo hi : N) :
  avg_len frame = Ok (PyFloat q) ->
  (forall r x, In r frame -> length r = Some x -> (lo <= x <= hi)%N) ->
  inject_Z (Z.of_N lo) <= q <= inject_Z (Z.of_N hi).
Proof.
  unfold avg_len, mean. intros Havg Hb.
  destruct (0 <? count frame)%Z; [| discriminate].
  destruct (dropna (map length frame)) as [| x xs] eqn:E; [discriminate |].
  replace q
    with (Qred (inject_Z (Z.of_N (fold_right N.add 0%N (x :: xs)))
                / inject_Z (Z.of_nat (List.length (x :: xs)))))
    by congruence.
  clear Havg. rewrite Qred_correct.
  assert (Hin : forall y, In y (x :: xs) -> (lo <= y <= hi)%N).
  { intros y Hy. rewrite <- E in Hy. apply dropna_In in Hy.
    apply in_map_iff in Hy as [r [Hr Hrin]]. eauto. }
  pose proof (sum_between (x :: xs) Hin) as [Hlo Hhi].
  set (n := List.length (x :: xs)) in *.
  set (total := fold_right N.add 0%N (x :: xs)) in *.
  assert (Hn : 0 < inject_Z (Z.of_nat n))
    by (apply inject_Z_pos; unfold n; simpl; lia).
  split.
  - apply Qle_shift_div_l; [exact Hn |]. rewrite <- inject_Z_mult.
    apply inject_Z_le. lia.
  - apply Qle_shift_div_r; [exact Hn |]. rewrite <- inject_Z_mult.
    apply inject_Z_le. lia.
Qed.

Section CardFacts.
Context {re : PyRe}.

(** X14. When the filter ran with the choice "Arabic" and kept a row, the
    Arabic card shows 100; with the choice "English", it shows 0. *)
Theorem arabic_pct_under_language_choice (sel : selection) (df sub : table) :
  apply_filters sel df = Ok sub ->
  sub <> [] ->
  (lang_filter sel = "Arabic"%string -> arabic_pct sub = Ok (PyFloat 100)) /\
  (lang_filter sel = "English"%string -> arabic_pct sub = Ok (PyFloat 0)).
Proof.
  intros Hsub Hne.
  assert (Hlang : forall r, In r sub -> language_selected sel r).
  { intros r Hr. apply language_ok_iff.
    now destruct (apply_filters_subset _ _ _ Hsub Hr) as [_ [H _]]. }
  pose proof (count_nonempty Hne) as Hpos.
  unfold arabic_pct, language_mask. rewrite Hpos. apply Z.ltb_lt in Hpos.
  rewrite getitem_map. split; intros E.
  - rewrite filter_keeps_all; [now apply share_all |].
    intros r Hr. destruct (Hlang r Hr) as [H | H]; [congruence |].
    rewrite H, E. reflexivity.
  - rewrite filter_drops_all; [now apply share_none |].
    intros r Hr. destruct (Hlang r Hr) as [H | H]; [congruence |].
    rewrite H, E. reflexivity.
Qed.

Lemma positive_label_iff (x : raw_row) :
  sentiment_label (enrich_row x) = Some "Positive"%string <->
  label (enrich_row x) = 1%Z.
Proof.
  rewrite sentiment_label_enrich, label_enrich. unfold label_map, dict_get.
  destruct (Z.eqb_spec (-1) (raw_label x)) as [<- |];
    [split; [discriminate | lia] |].
  destruct (Z.eqb_spec 0 (raw_label x)) as [<- |];
    [split; [discriminate | lia] |].
  destruct (Z.eqb_spec 1 (raw_label x)) as [<- |];
    [split; reflexivity |].
  split; [discriminate | congruence].
Qed.

(** X15. On an enriched table, when "Positive" is the only sentiment
    selected and the view has a row, the positive card shows 100; when
    "Positive" is not selected, it shows 0. *)
Theorem positive_pct_under_sentiment_choice
        (csv : option (list raw_row)) (sel : selection) (df sub : table) :
  load_data csv = Some df ->
  apply_filters sel df = Ok sub ->
  sub <> [] ->
  ((forall v, In v (selected_sentiments sel) -> v = "Positive"%string) ->
   positive_pct sub = Ok (PyFloat 100)) /\
  (~ In "Positive"%string (selected_sentiments sel) ->
   positive_pct sub = Ok (PyFloat 0)).
Proof.
  intros Hload Hsub Hne.
  assert (Hrow : forall r, In r sub ->
            exists x, r = enrich_row x /\ sentiment_selected sel r).
  { intros r Hr.
    destruct (apply_filters_subset _ _ _ Hsub Hr) as [Hdf [_ Hs]].
    destruct (@enriched_row_of_load _ _ _ Hload Hdf) as [x ->].
    exists x. split; [reflexivity | now apply sentiment_ok_iff]. }
  pose proof (count_nonempty Hne) as Hpos.
  unfold positive_pct. rewrite Hpos. apply Z.ltb_lt in Hpos.
  rewrite getitem_map. split; intros E.
  - rewrite filter_keeps_all; [now apply share_all |].
    intros r Hr. destruct (Hrow r Hr) as [x [-> [v [Hv Hin]]]].
    apply Z.eqb_eq. apply positive_label_iff.
    now rewrite Hv, (E v Hin).
  - rewrite filter_drops_all; [now apply share_none |].
    intros r Hr. destruct (Hrow r Hr) as [x [-> [v [Hv Hin]]]].
    apply Z.eqb_neq. intros H1. apply positive_label_iff in H1.
    apply E. congruence.
Qed.

End CardFacts.

(** ** Chart data *)

Lemma insert_desc_In (x p : string * nat) (l : list (string * nat)) :
  In p (insert_desc x l) <-> p = x \/ In p l.
Proof.
  induction l as [| y l IH]; simpl.
  - split; intros [H | H]; auto.
  - destruct (snd y <=? snd x)%nat; simpl.
    + split; intros [H | H]; auto.
    + rewrite IH. tauto.
Qed.

Lemma insert_desc_total (x : string * nat) (l : list (string * nat)) :
  total_count (insert_desc x l) = (snd x + total_count l)%nat.
Proof.
  induction l as [| y l IH]; simpl; [reflexivity |].
  destruct (snd y <=? snd x)%nat; simpl; [reflexivity |].
  rewrite IH. lia.
Qed.

Lemma insert_desc_descending (x : string * nat) (l : list (string * nat)) :
  descending l -> descending (insert_desc x l).
Proof.
  induction l as [| y l IH]; simpl; intros H.
  - split; [intros y [] | exact I].
  - destruct H as [Hy Hl]. destruct (Nat.leb_spec (snd y) (snd x)) as [E | E].
    + simpl. split; [| split; assumption].
      intros z [<- | Hz]; [exact E |]. specialize (Hy z Hz). lia.
    + simpl. split; [| now apply IH].
      intros z Hz. apply insert_desc_In in Hz as [-> | Hz]; [lia | auto].
Qed.

Lemma sort_desc_In (p : string * nat) (l : list (string * nat)) :
  In p (sort_desc l) <-> In p l.
Proof.
  induction l as [| x l IH]; simpl; [tauto |].
  rewrite insert_desc_In, IH. intuition congruence.
Qed.

Lemma sort_desc_total (l : list (string * nat)) :
  total_count (sort_desc l) = total_count l.
Proof.
  induction l as [| x l IH]; simpl; [reflexivity |].
  now rewrite insert_desc_total, IH.
Qed.

Lemma sort_desc_descending (l : list (string * nat)) : descending (sort_desc l).
Proof.
  induction l as [| x l IH]; simpl; [exact I |].
  now apply insert_desc_descending.
Qed.

Lemma insert_desc_keys (x : string * nat) (l : list (string * nat)) :
  ~ In (fst x) (map fst l) -> NoDup (map fst l) ->
  NoDup (map fst (insert_desc x l)).
Proof.
  induction l as [| y l IH]; simpl; intros Hx Hl.
  - constructor; [tauto | constructor].
  - destruct (snd y <=? snd x)%nat; simpl.
    + constructor; [simpl; tauto | exact Hl].
    + inversion Hl as [| k ks Hk Hks]; subst. constructor.
      * intros Hin. apply in_map_iff in Hin as [p [Hp Hin]].
        apply insert_desc_In in Hin as [-> | Hin];
          [apply Hx; left; now symmetry |].
        apply Hk. rewrite <- Hp. exact (in_map fst _ _ Hin).
      * apply IH; tauto.
Qed.

Lemma sort_desc_keys (l : list (string * nat)) :
  NoDup (map fst l) -> NoDup (map fst (sort_desc l)).
Proof.
  induction l as [| x l IH]; simpl; intros H; [constructor |].
  inversion H as [| k ks Hk Hks]; subst. apply insert_desc_keys; [| auto].
  intros Hin. apply in_map_iff in Hin as [p [Hp Hin]].
  apply (proj1 (sort_desc_In p l)) in Hin.
  apply Hk. rewrite <- Hp. exact (in_map fst _ _ Hin).
Qed.

Lemma uniques_In (col : list (option string)) (v : string) :
  In v (uniques col) <-> In (Some v) col.
Proof.
  induction col as [| [w |] col IH]; simpl.
  - tauto.
  - rewrite filter_In, IH, negb_true_iff, String.eqb_neq.
    destruct (String.eqb_spec w v) as [-> | E].
    + split; auto.
    + split.
      * intros [H | [H _]]; [congruence | now right].
      * intros [H | H]; [congruence |]. right. split; [exact H | congruence].
  - rewrite IH. split; [auto | intros [H | H]; [discriminate | exact H]].
Qed.

Lemma uniques_NoDup (col : list (option string)) : NoDup (uniques col).
Proof.
  induction col as [| [w |] col IH]; simpl; [constructor | | exact IH].
  constructor.
  - rewrite filter_In, String.eqb_refl. intros [_ H]. discriminate.
  - now apply NoDup_filter.
Qed.

Lemma count_value_pos (col : list (option string)) (v : string) :
  (0 < count_value v col)%nat <-> In (Some v) col.
Proof.
  induction col as [| [w |] col IH]; simpl.
  - split; [lia | tauto].
  - destruct (String.eqb_spec w v) as [-> | E].
    + split; [auto | lia].
    + rewrite Nat.add_0_l, IH. split; [auto |].
      intros [H | H]; [congruence | exact H].
  - rewrite IH. split; [auto | intros [H | H]; [discriminate | exact H]].
Qed.

Lemma filter_others_all (v : string) (keys : list string) :
  ~ In v keys -> filter (fun w => negb (w =? v)%string) keys = keys.
Proof.
  induction keys as [| k keys IH]; simpl; intros H; [reflexivity |].
  destruct (String.eqb_spec k v) as [-> | E]; simpl; [tauto |].
  f_equal. apply IH. tauto.
Qed.

Lemma counts_split (f : string -> nat) (v : string) (keys : list string) :
  NoDup keys -> (~ In v keys -> f v = 0%nat) ->
  total_count (map (fun w => (w, f w)) keys)
  = (f v + total_count (map (fun w => (w, f w))
                          (filter (fun w => negb (w =? v)%string) keys)))%nat.
Proof.
  induction keys as [| u keys IH]; intros Hnd Hv.
  - simpl. rewrite Hv by tauto. reflexivity.
  - inversion Hnd as [| k ks Hu Hks]; subst. simpl.
    destruct (String.eqb_spec u v) as [-> | E]; simpl.
    + now rewrite filter_others_all.
    + rewrite IH; [lia | exact Hks |].
      intros H. apply Hv. intros [H1 | H1]; [congruence | tauto].
Qed.

Lemma counts_total (col : list (option string)) :
  total_count (map (fun v => (v, count_value v col)) (uniques col))
  = List.length (defined_cells col).
Proof.
  induction col as [| [v |] col IH]; simpl; [reflexivity | | exact IH].
  rewrite String.eqb_refl. f_equal. rewrite <- IH.
  rewrite (counts_split (fun w => count_value w col) v (uniques_NoDup col)).
  - change (1 + count_value v col + ?a)%nat
      with (S (count_value v col + a)).
    do 3 f_equal. apply map_ext_in. intros w Hw.
    apply filter_In in Hw as [_ Hw]. apply negb_true_iff in Hw.
    rewrite String.eqb_sym in Hw. now rewrite Hw.
  - intros H. rewrite uniques_In in H.
    destruct (count_value v col) eqn:E; [reflexivity |].
    exfalso. apply H. apply count_value_pos. lia.
Qed.

Lemma count_value_rows (v : string) (frame : table) :
  count_value v (map sentiment_label frame)
  = List.length (filter (fun r => isin (sentiment_label r) [v]) frame).
Proof.
  induction frame as [| r frame IH]; simpl; [reflexivity |].
  destruct (sentiment_label r) as [w |]; simpl; [| exact IH].
  rewrite orb_false_r. destruct (w =? v)%string; simpl; now rewrite IH.
Qed.

Lemma chart_data_contract (frame : table) :
  NoDup (map fst (chart_data frame)) /\
  (forall v n,
      In (v, n) (chart_data frame) <->
      n = List.length (filter (fun r => isin (sentiment_label r) [v]) frame) /\
      (0 < n)%nat) /\
  descending (chart_data frame) /\
  total_count (chart_data frame)
  = List.length (filter (fun r => match sentiment_label r with
                                  | Some _ => true
                                  | None => false
                                  end) frame).
Proof.
  unfold chart_data, value_counts.
  set (col := map sentiment_label frame).
  split; [| split; [| split]].
  - apply sort_desc_keys. rewrite map_map. simpl. rewrite map_id.
    apply uniques_NoDup.
  - intros v n. rewrite sort_desc_In, in_map_iff.
    rewrite <- count_value_rows. fold col. split.
    + intros [w [[= -> <-] Hw]]. split; [reflexivity |].
      apply count_value_pos. now apply uniques_In.
    + intros [-> Hn]. exists v. split; [reflexivity |].
      apply uniques_In. now apply count_value_pos.
  - apply sort_desc_descending.
  - rewrite sort_desc_total, counts_total. unfold col, defined_cells.
    clear col. induction frame as [| r frame IH]; simpl; [reflexivity |].
    destruct (sentiment_label r); simpl; now rewrite IH.
Qed.

(** X16. The bar chart's data has one row per sentiment label present in
    the frame, each with the number of the frame's rows that carry the
    label (never 0); rows without a label are not counted, the labels are
    in order of decreasing count, and the counts add up to the number of
    rows that have a label. *)
Theorem chart_data_counts (frame : table) :
  NoDup (map fst (chart_data frame)) /\
  (forall v n,
      In (v, n) (chart_data frame) <->
      n = List.length (filter (fun r => isin (sentiment_label r) [v]) frame) /\
      (0 < n)%nat) /\
  descending (chart_data frame) /\
  total_count (chart_data frame)
  = List.length (filter (fun r => match sentiment_label r with
                                  | Some _ => true
                                  | None => false
                                  end) frame).
Proof. apply chart_data_contract. Qed.

Section ChartFacts.
Context {re : PyRe}.

(** X17. On a view returned by the filter, the bars of the chart add up
    to the "Total Reviews" card, and every bar is for a selected
    sentiment. *)
Theorem chart_counts_add_up_to_total (sel : selection) (df sub : table) :
  apply_filters sel df = Ok sub ->
  Z.of_nat (total_count (chart_data sub)) = count sub /\
  (forall v n, In (v, n) (chart_data sub) -> In v (selected_sentiments sel)).
Proof.
  intros Hsub.
  assert (Hrow : forall r, In r sub -> sentiment_selected sel r).
  { intros r Hr. apply sentiment_ok_iff.
    now destruct (apply_filters_subset _ _ _ Hsub Hr) as [_ [_ H]]. }
  destruct (chart_data_contract sub) as [_ [Hin [_ Htotal]]]. split.
  - rewrite Htotal. unfold count. f_equal. f_equal.
    apply filter_keeps_all. intros r Hr.
    destruct (Hrow r Hr) as [v [-> _]]. reflexivity.
  - intros v n Hvn. apply Hin in Hvn as [-> Hn].
    destruct (filter (fun r => isin (sentiment_label r) [v]) sub)
      as [| r rest] eqn:E; [simpl in Hn; lia |].
    assert (Hr : In r (filter (fun r => isin (sentiment_label r) [v]) sub))
      by (rewrite E; now left).
    apply filter_In in Hr as [Hr Hv].
    destruct (Hrow r Hr) as [w [Hw Hsel]]. rewrite Hw in Hv. simpl in Hv.
    rewrite orb_false_r in Hv. apply String.eqb_eq in Hv. now subst w.
Qed.

End ChartFacts.

(** ** Review explorer *)

(** X18. The explorer shows the first rows of the view, in the view's
    order, with their label, language, text and length: all of them when
    the view has at most 100 rows, the first 100 otherwise. *)
Theorem review_explorer_first_rows (frame : table) :
  List.length (review_explorer frame) = Nat.min 100 (List.length frame) /\
  (forall i, (i < 100)%nat ->
             nth_error (review_explorer frame) i
             = option_map explorer_columns (nth_error frame i)) /\
  ((List.length frame <= 100)%nat ->
   review_explorer frame = map explorer_columns frame).
Proof.
  unfold review_explorer. split; [| split].
  - now rewrite length_firstn, length_map.
  - intros i Hi. rewrite nth_error_firstn.
    apply Nat.ltb_lt in Hi. rewrite Hi. apply nth_error_map.
  - intros H. apply firstn_all2. now rewrite length_map.
Qed.

(** ** Rows are decided one by one; when the filter raises *)

Section RaiseFacts.
Context {re : PyRe}.

(** X19. The filter decides each row on its own: filtering two tables put
    end to end gives the two views put end to end, and raises when
    filtering either of them does. *)
Theorem apply_filters_app (sel : selection) (df1 df2 : table) :
  apply_filters sel (df1 ++ df2)
  = (sub1 <- apply_filters sel df1 ;;
     sub2 <- apply_filters sel df2 ;;
     Ok (sub1 ++ sub2)).
Proof.
  rewrite !apply_filters_unfold.
  destruct (search_query sel) as [| c q]; simpl.
  - now rewrite filter_app.
  - destruct (re_compile (c :: q)) as [found |]; simpl; [| reflexivity].
    now rewrite filter_app.
Qed.


(** X21. A search text that starts with "*", "+" or "?" has nothing to
    repeat: it makes the filter raise on every table and with every
    language choice and sentiment selection. *)
Theorem leading_quantifier_raises
        (c : char) (rest : pystr) (lang : string) (chosen : list string)
        (df : table) :
  In c (lit "*+?") ->
  apply_filters {| lang_filter := lang; selected_sentiments := chosen;
                   search_query := c :: rest |} df = Raise ReError.
Proof.
  intros Hc. rewrite apply_filters_unfold. cbn [search_query].
  replace (re_compile (c :: rest)) with (@None (pystr -> bool));
    [reflexivity |].
  unfold re_compile.
  replace (2 * List.length (c :: rest) + 2)%nat
    with (S (S (2 * List.length rest + 2))) by (simpl; lia).
  destruct Hc as [<- | [<- | [<- | []]]]; reflexivity.
Qed.

End RaiseFacts.

(** ** The further properties on the example data *)

Lemma keyword_membership_on_sample :
  plain (search_query okay_selection) = true /\
  exists sub,
    apply_filters (re := ascii_re) okay_selection sample_df = Ok sub /\
    forall r,
      In r sub <->
      In r sample_df /\ language_selected okay_selection r /\
      sentiment_selected okay_selection r /\
      (search_query okay_selection = [] \/
       exists content, review_content r = Some content /\
                       ci_contains (re := ascii_re)
                         (search_query okay_selection) content).
Proof.
  split; [reflexivity |].
  apply (@keyword_filter_membership ascii_re okay_selection sample_df).
  reflexivity.
Defined.

Lemma okay_subset_is_subsequence :
  apply_filters (re := ascii_re) okay_selection sample_df = Ok okay_subset /\
  subseq okay_subset sample_df /\ (count okay_subset <= count sample_df)%Z.
Proof.
  split; [reflexivity |].
  apply (@filtered_view_is_subsequence ascii_re okay_selection sample_df
           okay_subset).
  reflexivity.
Defined.

Lemma negative_within_all :
  lang_filter negative_selection = lang_filter select_all /\
  search_query negative_selection = search_query select_all /\
  incl (selected_sentiments negative_selection)
       (selected_sentiments select_all) /\
  apply_filters (re := ascii_re) negative_selection sample_df
  = Ok arabic_subset /\
  apply_filters (re := ascii_re) select_all sample_df = Ok sample_df /\
  incl arabic_subset sample_df.
Proof.
  assert (Hincl : incl (selected_sentiments negative_selection)
                       (selected_sentiments select_all)).
  { intros v [<- | []]. simpl. tauto. }
  split; [reflexivity |]. split; [reflexivity |]. split; [exact Hincl |].
  split; [reflexivity |]. split; [reflexivity |].
  apply (@more_sentiments_more_rows ascii_re negative_selection select_all
           sample_df arabic_subset sample_df);
    [reflexivity | reflexivity | exact Hincl | reflexivity | reflexivity].
Defined.

Lemma textless_review_seen_under_all :
  load_data (Some textless_csv) = Some textless_df /\
  apply_filters (re := ascii_re) negative_selection textless_df
  = Ok textless_subset /\
  In (enrich_row (mk_raw None (-1))) textless_subset /\
  review_content (enrich_row (mk_raw None (-1))) = None /\
  (lang_filter negative_selection = "All"%string \/
   lang_filter negative_selection = "Unknown"%string) /\
  search_query negative_selection = [].
Proof.
  split; [reflexivity |]. split; [reflexivity |].
  split; [now left |]. split; [reflexivity |].
  apply (@textless_review_in_view ascii_re (Some textless_csv)
           negative_selection textless_df textless_subset
           (enrich_row (mk_raw None (-1))));
    [reflexivity | reflexivity | now left | reflexivity].
Defined.

Lemma arabic_choice_on_sample :
  load_data (Some sample_csv) = Some sample_df /\
  apply_filters (re := ascii_re) arabic_selection sample_df = Ok arabic_subset /\
  forall r, In r arabic_subset ->
    (lang_filter arabic_selection = "Arabic"%string ->
     exists s, review_content r = Some s /\
               exists c, In c s /\ (0x0600 <= c <= 0x06FF)%N) /\
    (lang_filter arabic_selection = "English"%string ->
     exists s, review_content r = Some s /\
               forall c, In c s -> ~ (0x0600 <= c <= 0x06FF)%N).
Proof.
  split; [reflexivity |]. split; [reflexivity |]. intros r Hr.
  apply (@language_choice_meaning ascii_re (Some sample_csv) arabic_selection
           sample_df arabic_subset r);
    [reflexivity | reflexivity | exact Hr].
Defined.

Lemma okay_mean_between :
  avg_len okay_subset = Ok (PyFloat 4) /\
  (forall r x, In r okay_subset -> length r = Some x -> (1 <= x <= 10)%N) /\
  inject_Z (Z.of_N 1) <= 4 <= inject_Z (Z.of_N 10).
Proof.
  assert (Hb : forall r x, In r okay_subset -> length r = Some x ->
                           (1 <= x <= 10)%N).
  { intros r x [<- | []] [= <-]. vm_compute. split; discriminate. }
  split; [reflexivity |]. split; [exact Hb |].
  apply (@avg_len_between okay_subset 4 1 10); [reflexivity | exact Hb].
Defined.

Lemma arabic_card_on_sample :
  apply_filters (re := ascii_re) arabic_selection sample_df = Ok arabic_subset /\
  arabic_subset <> [] /\
  (lang_filter arabic_selection = "Arabic"%string ->
   arabic_pct arabic_subset = Ok (PyFloat 100)) /\
  (lang_filter arabic_selection = "English"%string ->
   arabic_pct arabic_subset = Ok (PyFloat 0)).
Proof.
  split; [reflexivity |]. split; [discriminate |].
  apply (@arabic_pct_under_language_choice ascii_re arabic_selection
           sample_df arabic_subset); [reflexivity | discriminate].
Defined.

Lemma positive_card_on_sample :
  load_data (Some sample_csv) = Some sample_df /\
  apply_filters (re := ascii_re) positive_selection sample_df
  = Ok positive_subset /\
  positive_subset <> [] /\
  ((forall v, In v (selected_sentiments positive_selection) ->
              v = "Positive"%string) ->
   positive_pct positive_subset = Ok (PyFloat 100)) /\
  (~ In "Positive"%string (selected_sentiments positive_selection) ->
   positive_pct positive_subset = Ok (PyFloat 0)).
Proof.
  split; [reflexivity |]. split; [reflexivity |]. split; [discriminate |].
  apply (@positive_pct_under_sentiment_choice ascii_re (Some sample_csv)
           positive_selection sample_df positive_subset);
    [reflexivity | reflexivity | discriminate].
Defined.

Lemma chart_total_on_sample :
  apply_filters (re := ascii_re) select_all sample_df = Ok sample_df /\
  Z.of_nat (total_count (chart_data sample_df)) = count sample_df /\
  (forall v n, In (v, n) (chart_data sample_df) ->
               In v (selected_sentiments select_all)).
Proof.
  split; [reflexivity |].
  apply (@chart_counts_add_up_to_total ascii_re select_all sample_df sample_df).
  reflexivity.
Defined.

Lemma star_pizza_raises :
  In 42%N (lit "*+?") /\
  apply_filters (re := ascii_re)
    {| lang_filter := "All"; selected_sentiments := all_sentiments;
       search_query := 42%N :: lit "pizza" |} sample_df = Raise ReError.
Proof.
  split; [now left |].
  apply (@leading_quantifier_raises ascii_re 42%N (lit "pizza") "All"
           all_sentiments sample_df).
  now left.
Defined.

Example chart_data_sample :
  chart_data (arabic_subset ++ positive_subset ++ unlabelled_df
              ++ positive_subset)
  = [("Positive", 2); ("Negative", 1)]%string%nat.
Proof. reflexivity. Qed.
